(** * LangGraph Agent Builder: state container, node units, configuration
      model and graph builder, embedded from the Python sources.

    Python dictionaries whose iteration order is irrelevant to the code under
    study (the agent state, a tool's input mapping, a branch table) are finite
    maps [gmap string _]; the graph's node table, which the fallback engine
    walks in insertion order, is an association list with dictionary
    insertion.  In-place mutation of the state dictionary is explicit state
    passing: a node function returns the state it leaves behind, also when it
    raises. *)

From Stdlib Require Import ZArith Ascii String List.
From stdpp Require Import gmap strings list fin_maps pretty.

Open Scope string_scope.
Open Scope list_scope.
Local Set Warnings "-register-all".

(* ===================================================================== *)
(** ** Python values and exceptions                                       *)
(* ===================================================================== *)

(** The values that flow through the state dictionary.  [VDict] is a plain
    dictionary such as [{"role": "user", "content": ...}]; [VMsg] is a message
    object ([HumanMessage], [AIMessage], [SystemMessage]) with its [role] and
    [content] attributes. *)
Inductive value : Type :=
  | VNone
  | VBool (b : bool)
  | VInt (z : Z)
  | VStr (s : string)
  | VList (l : list value)
  | VDict (d : list (string * value))
  | VMsg (role : string) (content : value).

Definition HumanMessage (content : value) : value := VMsg "human" content.
Definition AIMessage (content : value) : value := VMsg "ai" content.
Definition SystemMessage (content : value) : value := VMsg "system" content.

(** [type(v).__name__], as it appears in Python's error messages.  A
    message object is named after its class, which its role stands for. *)
Definition type_name (v : value) : string :=
  match v with
  | VNone => "NoneType"
  | VBool _ => "bool"
  | VInt _ => "int"
  | VStr _ => "str"
  | VList _ => "list"
  | VDict _ => "dict"
  | VMsg role _ =>
      if String.eqb role "human" then "HumanMessage"
      else if String.eqb role "ai" then "AIMessage"
      else if String.eqb role "system" then "SystemMessage"
      else "BaseMessage"
  end.

(** Python truthiness ([if v:], [not v], [a or b]). *)
Definition truthy (v : value) : bool :=
  match v with
  | VNone => false
  | VBool b => b
  | VInt z => negb (z =? 0)%Z
  | VStr s => negb (String.eqb s "")
  | VList l => match l with [] => false | _ => true end
  | VDict d => match d with [] => false | _ => true end
  | VMsg _ _ => true
  end.

Inductive exn_kind : Type :=
  | KeyError | IndexError | AttributeError | TypeError | ValueError | OtherError.

(** An exception with the text [str(e)] yields. *)
Record exn : Type := Exn { exn_kind_of : exn_kind; exn_str : string }.

Inductive result (A : Type) : Type :=
  | Ok (a : A)
  | Raise (e : exn).
Arguments Ok {A} a.
Arguments Raise {A} e.

Definition is_ok {A} (r : result A) : bool :=
  match r with Ok _ => true | Raise _ => false end.

Abbreviation state := (gmap string value).

(** [obj.attr] on a value without that attribute. *)
Definition no_attribute (v : value) (attr : string) : exn :=
  Exn AttributeError
      ("'" +:+ type_name v +:+ "' object has no attribute '" +:+ attr +:+ "'").

(** [m.content]: only message objects carry the attribute. *)
Definition content_of (m : value) : result value :=
  match m with
  | VMsg _ c => Ok c
  | _ => Raise (no_attribute m "content")
  end.

(** [state.get("messages", [])]. *)
Definition get_messages (st : state) : value :=
  default (VList []) (st !! "messages").

(** The message history as a list, empty when the key is absent or does not
    hold a list. *)
Definition messages_of (st : state) : list value :=
  match st !! "messages" with
  | Some (VList l) => l
  | _ => []
  end.

(* ===================================================================== *)
(** ** core/state.py                                                      *)
(* ===================================================================== *)

(** Fallback [add_messages]: [return x + y]. *)
Definition add_messages (x y : list value) : list value := x ++ y.

Module StateManager.

(** [_get_default_state]. *)
Definition _get_default_state : state :=
  <["messages" := VList []]>
  (<["input" := VStr ""]>
  (<["output" := VNone]>
  (<["current_node" := VNone]>
  (<["error" := VNone]>
  (<["metadata" := VDict []]>
  (<["context" := VDict []]>
  (<["iterations" := VInt 0]> ∅))))))).

(** [__init__]: [initial_state or self._get_default_state()]; an empty
    dictionary is falsy. *)
Definition init (initial_state : option state) : state :=
  match initial_state with
  | Some st => if decide (st = ∅) then _get_default_state else st
  | None => _get_default_state
  end.

(** [update]: [self.state.update(updates)]; every key of [updates] is
    assigned, the others are left alone.  Returns the state. *)
Definition update (self updates : state) : state := updates ∪ self.

(** [get]: [self.state.get(key, default)]. *)
Definition get (self : state) (key : string) (dflt : value) : value :=
  default dflt (self !! key).

(** [increment_iterations]: [self.state['iterations'] += 1], then the new
    counter.  Booleans are integers in Python. *)
Definition increment_iterations (self : state) : result (state * value) :=
  match self !! "iterations" with
  | None => Raise (Exn KeyError "'iterations'")
  | Some (VInt n) =>
      Ok (<["iterations" := VInt (n + 1)]> self, VInt (n + 1))
  | Some (VBool b) =>
      Ok (<["iterations" := VInt (Z.b2z b + 1)]> self, VInt (Z.b2z b + 1))
  | Some v =>
      Raise (Exn TypeError ("unsupported operand type(s) for +=: '"
                            +:+ type_name v +:+ "' and 'int'"))
  end.

(** [add_message]: creates the history when the key is missing, then
    appends in place. *)
Definition add_message (self : state) (message : value) : result state :=
  let self1 :=
    match self !! "messages" with
    | None => <["messages" := VList []]> self
    | Some _ => self
    end in
  match self1 !! "messages" with
  | Some (VList l) => Ok (<["messages" := VList (l ++ [message])]> self1)
  | Some v => Raise (no_attribute v "append")
  | None => Raise (Exn KeyError "'messages'")
  end.

Definition set_error (self : state) (error : string) : state :=
  <["error" := VStr error]> self.

Definition clear_error (self : state) : state :=
  <["error" := VNone]> self.

(** [snapshot]: [dict(self.state)], a copy with the same items. *)
Definition snapshot (self : state) : state := self.

End StateManager.

(* ===================================================================== *)
(** ** config/models.py                                                   *)
(* ===================================================================== *)

Module Config.

Inductive NodeType : Type := LLM | TOOL | CONDITIONAL | HUMAN_INPUT | CUSTOM.

Inductive WorkflowType : Type :=
  | SEQUENTIAL | PARALLEL | WF_CONDITIONAL | CYCLIC | WF_CUSTOM.

#[global] Instance NodeType_eq_dec : EqDecision NodeType.
Proof. solve_decision. Defined.

#[global] Instance WorkflowType_eq_dec : EqDecision WorkflowType.
Proof. solve_decision. Defined.

Record NodeConfig : Type := {
  name : string;
  type : NodeType;
  description : option string;
  prompt : option string;
  tool : option string;
  tool_config : option (gmap string value);
  condition : option string;
  branches : option (gmap string string)
}.

Record EdgeConfig : Type := {
  source : string;
  target : string;
  edge_condition : option string
}.

Record AgentConfig : Type := {
  agent_name : string;
  workflow_type : WorkflowType;
  nodes : list NodeConfig;
  edges : option (list EdgeConfig);
  entry_point : option string;
  timeout : Z;
  max_iterations : Z
}.

(** *** Construction.

    A keyword of the constructor is either left out or supplied; an
    [Optional] field may be supplied as [None].  A field validator runs on
    a supplied value only: the validators below are declared without
    [always=True], so a field left at its default is not validated. *)
Inductive field (A : Type) : Type :=
  | Omitted
  | Supplied (v : option A).
Arguments Omitted {A}.
Arguments Supplied {A} v.

Definition field_value {A} (f : field A) : option A :=
  match f with Omitted => None | Supplied v => v end.

(** A validation error: the field it is reported on and its message. *)
Definition error_list : Type := list (string * string).

Inductive validated (A : Type) : Type :=
  | Valid (a : A)
  | Invalid (errors : error_list).
Arguments Valid {A} a.
Arguments Invalid {A} errors.

(** [not v] for an optional string. *)
Definition falsy_str (v : option string) : bool :=
  match v with
  | None => true
  | Some s => String.eqb s ""
  end.

Record NodeInput : Type := {
  in_name : string;
  in_type : NodeType;
  in_description : field string;
  in_prompt : field string;
  in_tool : field string;
  in_tool_config : field (gmap string value);
  in_condition : field string;
  in_branches : field (gmap string string)
}.

(** [prompt_required_for_llm(cls, v, values)]. *)
Definition prompt_required_for_llm
    (v : option string) (values_type : option NodeType) : result (option string) :=
  if bool_decide (values_type = Some LLM) && falsy_str v
  then Raise (Exn ValueError "Prompt is required for LLM nodes")
  else Ok v.

(** [tool_required_for_tool_node(cls, v, values)]. *)
Definition tool_required_for_tool_node
    (v : option string) (values_type : option NodeType) : result (option string) :=
  if bool_decide (values_type = Some TOOL) && falsy_str v
  then Raise (Exn ValueError "Tool name is required for tool nodes")
  else Ok v.

(** Run a field validator: skipped on an omitted field, whose default
    [None] is taken as it is. *)
Definition validate_field {A} (loc : string)
    (validator : option A -> result (option A)) (f : field A)
    : option A * error_list :=
  match f with
  | Omitted => (None, [])
  | Supplied v =>
      match validator v with
      | Ok v' => (v', [])
      | Raise e => (None, [(loc, exn_str e)])
      end
  end.

(** [NodeConfig(...)]: fields are validated in declaration order and
    all errors are collected. *)
Definition NodeConfig_new (inp : NodeInput) : validated NodeConfig :=
  let values_type := Some (in_type inp) in
  let checked_prompt :=
    validate_field "prompt"
      (fun v => prompt_required_for_llm v values_type) (in_prompt inp) in
  let checked_tool :=
    validate_field "tool"
      (fun v => tool_required_for_tool_node v values_type) (in_tool inp) in
  match checked_prompt.2 ++ checked_tool.2 with
  | [] => Valid {| name := in_name inp;
                   type := in_type inp;
                   description := field_value (in_description inp);
                   prompt := checked_prompt.1;
                   tool := checked_tool.1;
                   tool_config := field_value (in_tool_config inp);
                   condition := field_value (in_condition inp);
                   branches := field_value (in_branches inp) |}
  | errs => Invalid errs
  end.

Record AgentInput : Type := {
  in_agent_name : string;
  in_workflow_type : option WorkflowType;
  in_nodes : list NodeInput;
  in_edges : field (list EdgeConfig);
  in_entry_point : field string;
  in_timeout : option Z;
  in_max_iterations : option Z
}.

(** Validation of the [nodes] field: every element is built, the errors of
    all of them are reported under [nodes]. *)
Fixpoint validate_nodes (l : list NodeInput) : list NodeConfig * error_list :=
  match l with
  | [] => ([], [])
  | inp :: rest =>
      let '(cfgs, errs) := validate_nodes rest in
      match NodeConfig_new inp with
      | Valid c => (c :: cfgs, errs)
      | Invalid es => (cfgs, map (fun e => ("nodes", e.2)) es ++ errs)
      end
  end.

(** [validate_edges(cls, v, values)]. *)
Definition validate_edges
    (v : option (list EdgeConfig)) (values_workflow_type : option WorkflowType)
    : result (option (list EdgeConfig)) :=
  let v_truthy := match v with Some (_ :: _) => true | _ => false end in
  if v_truthy && bool_decide (values_workflow_type = Some SEQUENTIAL)
  then Raise (Exn ValueError "Custom edges are not allowed for sequential workflows")
  else Ok v.

(** [validate_entry_point(cls, v, values)]; [values_nodes] is
    [values.get('nodes', [])], empty when the nodes failed to validate. *)
Definition validate_entry_point
    (v : option string) (values_nodes : list NodeConfig) : result (option string) :=
  match v with
  | Some s =>
      if String.eqb s "" then Ok v
      else
        let node_names := map name values_nodes in
        if bool_decide (s ∈ node_names) then Ok v
        else Raise (Exn ValueError ("Entry point '" +:+ s +:+ "' not found in nodes"))
  | None => Ok v
  end.

(** [AgentConfig(...)]. *)
Definition AgentConfig_new (inp : AgentInput) : validated AgentConfig :=
  let wt := default SEQUENTIAL (in_workflow_type inp) in
  let checked_nodes := validate_nodes (in_nodes inp) in
  let values_nodes :=
    match checked_nodes.2 with [] => checked_nodes.1 | _ => [] end in
  let checked_edges :=
    validate_field "edges" (fun v => validate_edges v (Some wt)) (in_edges inp) in
  let checked_entry :=
    validate_field "entry_point"
      (fun v => validate_entry_point v values_nodes) (in_entry_point inp) in
  match checked_nodes.2 ++ checked_edges.2 ++ checked_entry.2 with
  | [] => Valid {| agent_name := in_agent_name inp;
                   workflow_type := wt;
                   nodes := checked_nodes.1;
                   edges := checked_edges.1;
                   entry_point := checked_entry.1;
                   timeout := default 300%Z (in_timeout inp);
                   max_iterations := default 10%Z (in_max_iterations inp) |}
  | errs => Invalid errs
  end.

End Config.

(* ===================================================================== *)
(** ** core/nodes.py                                                      *)
(* ===================================================================== *)

Module Nodes.
Import Config.

(** What a node function hands back: a dictionary (usually the state
    object itself) or any other value, a routing decision for a
    conditional node. *)
Inductive node_ret : Type :=
  | RetDict (d : state)
  | RetVal (v : value).

(** A call of a node function on the state dictionary: the dictionary as
    the call leaves it, with the returned value or the raised exception. *)
Inductive node_outcome : Type :=
  | Returned (st : state) (r : node_ret)
  | Raised (st : state) (e : exn).

Definition node_func : Type := state -> node_outcome.

(** The [except] clause of every node function:
    [state["error"] = str(e); raise]. *)
Definition record_error (st : state) (e : exn) : node_outcome :=
  Raised (<["error" := VStr (exn_str e)]> st) e.

(** *** ToolNodeBuilder._prepare_tool_input *)

(** One value of the mapping: a string that starts with [$] is looked up
    with [state.get(value[1:])], anything else is kept. *)
Definition resolve_reference (st : state) (v : value) : value :=
  match v with
  | VStr (String c state_key) =>
      if Ascii.eqb c "$"%char then default VNone (st !! state_key) else v
  | _ => v
  end.

(** [v[-1]]. *)
Definition last_item (v : value) : result value :=
  match v with
  | VList l =>
      match last l with
      | Some x => Ok x
      | None => Raise (Exn IndexError "list index out of range")
      end
  | VStr s =>
      match last (list_ascii_of_string s) with
      | Some c => Ok (VStr (String c EmptyString))
      | None => Raise (Exn IndexError "string index out of range")
      end
  | VDict _ => Raise (Exn KeyError "-1")
  | _ => Raise (Exn TypeError ("'" +:+ type_name v +:+ "' object is not subscriptable"))
  end.

(** The [else] branch of [_prepare_tool_input]: the content of the last
    message, if there is one. *)
Definition default_tool_input
    (st : state) (tool_input : gmap string value) : result (gmap string value) :=
  let messages := get_messages st in
  if truthy messages then
    match last_item messages with
    | Ok m =>
        match content_of m with
        | Ok c => Ok (<["input" := c]> tool_input)
        | Raise e => Raise e
        end
    | Raise e => Raise e
    end
  else Ok tool_input.

(** [if tool_config:] is false for [None] and for the empty dictionary. *)
Definition _prepare_tool_input
    (st : state) (tool_config : option (gmap string value))
    : result (gmap string value) :=
  let tool_input : gmap string value := ∅ in
  match tool_config with
  | Some tc =>
      if bool_decide (tc = ∅) then default_tool_input st tool_input
      else
        Ok (map_fold
              (fun key value tool_input =>
                 <[key := resolve_reference st value]> tool_input)
              tool_input tc)
  | None => default_tool_input st tool_input
  end.

(** *** ConditionalNodeBuilder *)

(** The result of evaluating a condition, as far as the node looks at it:
    the node only takes [str(result)].  [CObj] is any other object, given
    by the text [str] renders it to. *)
Inductive cond_value : Type :=
  | CNone
  | CBool (b : bool)
  | CInt (z : Z)
  | CStr (s : string)
  | CObj (rendering : string).

(** [str(result)]. *)
Definition py_str (r : cond_value) : string :=
  match r with
  | CNone => "None"
  | CBool true => "True"
  | CBool false => "False"
  | CInt z => pretty z
  | CStr s => s
  | CObj rendering => rendering
  end.

Inductive eval_outcome : Type :=
  | EvalReturns (r : cond_value)
  | EvalRaises (e : exn).

(** The expression evaluator behind [eval(condition, ..., {"state": state})]:
    an external collaborator. *)
Definition evaluator : Type := string -> state -> eval_outcome.

(** [eval] on the optional condition of the node: [None] is no expression. *)
Definition py_eval (ev : evaluator) (condition : option string) (st : state)
    : eval_outcome :=
  match condition with
  | Some c => ev c st
  | None => EvalRaises (Exn TypeError "eval() arg 1 must be a string, bytes or code object")
  end.

(** [_parse_condition]: the callable swallows every evaluation error and
    answers [False]. *)
Definition _parse_condition (ev : evaluator) (condition : option string)
    : state -> cond_value :=
  fun st =>
    match py_eval ev condition st with
    | EvalReturns r => r
    | EvalRaises _ => CBool false
    end.

(** [branches.get(str(result), branches.get("default", "END"))]. *)
Definition next_node (branches : gmap string string) (result : cond_value) : string :=
  default (default "END" (branches !! "default")) (branches !! py_str result).

Definition conditional_node (ev : evaluator) (config : NodeConfig) : node_func :=
  let condition_func := _parse_condition ev (condition config) in
  let branches := default ∅ (branches config) in
  fun st =>
    let st := <["current_node" := VStr (name config)]> st in
    let result := condition_func st in
    Returned st (RetVal (VStr (next_node branches result))).

(** *** HumanInputNodeBuilder *)

(** [config.description or "Please provide input:"]. *)
Definition human_prompt (config : NodeConfig) : string :=
  match description config with
  | Some d => if String.eqb d "" then "Please provide input:" else d
  | None => "Please provide input:"
  end.

Definition human_input_node (config : NodeConfig) : node_func :=
  fun st =>
    let st := <["current_node" := VStr (name config)]> st in
    let prompt := human_prompt config in
    let st := <["needs_human_input" := VBool true]> st in
    let st := <["human_input_prompt" := VStr prompt]> st in
    match st !! "human_input" with
    | Some answer =>
        match get_messages st with
        | VList messages =>
            let st := <["messages" := VList (messages ++ [HumanMessage answer])]> st in
            let st := <["needs_human_input" := VBool false]> st in
            let st := delete "human_input" st in
            Returned st (RetDict st)
        | v => record_error st (no_attribute v "append")
        end
    | None => Returned st (RetDict st)
    end.

(** *** CustomNodeBuilder *)

Definition handler : Type := state -> NodeConfig -> node_outcome.

Definition custom_node (custom_func : handler) (config : NodeConfig) : node_func :=
  fun st =>
    let st := <["current_node" := VStr (name config)]> st in
    match custom_func st config with
    | Returned st' r => Returned st' r
    | Raised st' e => record_error st' e
    end.

(** *** NodeFactory *)

(** The build context.  The LLM and tool builders depend on the provider
    and the tool registry, which are collaborators; their node functions
    are taken from the context. *)
Record build_context : Type := {
  llm_builder : NodeConfig -> result node_func;
  tool_builder : NodeConfig -> result node_func;
  custom_handlers : list (string * handler);
  condition_evaluator : evaluator
}.

(** [custom_handlers[config.name]] after the membership test. *)
Fixpoint lookup_handler (l : list (string * handler)) (k : string) : option handler :=
  match l with
  | [] => None
  | (k', h) :: rest => if String.eqb k' k then Some h else lookup_handler rest k
  end.

Definition create_node (config : NodeConfig) (context : build_context)
    : result node_func :=
  match type config with
  | LLM => llm_builder context config
  | TOOL => tool_builder context config
  | CONDITIONAL => Ok (conditional_node (condition_evaluator context) config)
  | HUMAN_INPUT => Ok (human_input_node config)
  | CUSTOM =>
      match lookup_handler (custom_handlers context) (name config) with
      | Some custom_func => Ok (custom_node custom_func config)
      | None => Raise (Exn ValueError
                         ("Custom handler not found for node: " +:+ name config))
      end
  end.

End Nodes.

(* ===================================================================== *)
(** ** builders/agent_builder.py                                          *)
(* ===================================================================== *)

Module AgentBuilder.
Import Config Nodes.

(** The terminal marker. *)
Definition END : string := "__end__".

(** *** Fallback [StateGraph] and [MockLangGraphApp] *)

(** [d[k] = v] on an insertion-ordered dictionary: an existing key keeps
    its place, a new key goes last. *)
Fixpoint dict_set {A} (k : string) (v : A) (d : list (string * A))
    : list (string * A) :=
  match d with
  | [] => [(k, v)]
  | (k', v') :: rest =>
      if String.eqb k' k then (k, v) :: rest
      else (k', v') :: dict_set k v rest
  end.

Record StateGraph : Type := {
  graph_nodes : list (string * node_func);
  graph_edges : list (string * string);
  graph_entry_point : option string
}.

(** [StateGraph(state_type)]. *)
Definition new_graph : StateGraph :=
  {| graph_nodes := []; graph_edges := []; graph_entry_point := None |}.

Definition add_node (g : StateGraph) (name : string) (func : node_func) : StateGraph :=
  {| graph_nodes := dict_set name func (graph_nodes g);
     graph_edges := graph_edges g;
     graph_entry_point := graph_entry_point g |}.

Definition add_edge (g : StateGraph) (source target : string) : StateGraph :=
  {| graph_nodes := graph_nodes g;
     graph_edges := graph_edges g ++ [(source, target)];
     graph_entry_point := graph_entry_point g |}.

(** The fallback stores the routing function as the node itself. *)
Definition add_conditional_edges (g : StateGraph) (source : string) (func : node_func)
    : StateGraph :=
  {| graph_nodes := dict_set source func (graph_nodes g);
     graph_edges := graph_edges g;
     graph_entry_point := graph_entry_point g |}.

Definition set_entry_point (g : StateGraph) (node : string) : StateGraph :=
  {| graph_nodes := graph_nodes g;
     graph_edges := graph_edges g;
     graph_entry_point := Some node |}.

Record MockLangGraphApp : Type := {
  app_nodes : list (string * node_func);
  app_edges : list (string * string)
}.

(** [compile]: the entry point is not handed over. *)
Definition compile (g : StateGraph) : MockLangGraphApp :=
  {| app_nodes := graph_nodes g; app_edges := graph_edges g |}.

(** The body of the [try] after the call: a dictionary is merged with
    [current_state.update(result)], anything else becomes the output. *)
Definition apply_result (current_state : state) (r : node_ret) : state :=
  match r with
  | RetDict d => d ∪ current_state
  | RetVal (VDict d) => list_to_map d ∪ current_state
  | RetVal v => <["output" := v]> current_state
  end.

(** The loop of [MockLangGraphApp.invoke] over [self.nodes.items()], with
    the names of the nodes it called. *)
Fixpoint run_nodes (nodes : list (string * node_func)) (current_state : state)
    : state * list string :=
  match nodes with
  | [] => (current_state, [])
  | (node_name, node_func) :: rest =>
      match node_func current_state with
      | Returned st r =>
          let '(final, called) := run_nodes rest (apply_result st r) in
          (final, node_name :: called)
      | Raised st e =>
          (<["error" := VStr (exn_str e)]> st, [node_name])
      end
  end.

(** [MockLangGraphApp.invoke(state, config)]. *)
Definition app_invoke (app : MockLangGraphApp) (st : state) : state :=
  (run_nodes (app_nodes app) st).1.

(** The node executions of one [invoke], in order. *)
Definition executions (app : MockLangGraphApp) (st : state) : list string :=
  (run_nodes (app_nodes app) st).2.

(** *** Edge wiring *)

Definition is_conditional (n : NodeConfig) : bool :=
  bool_decide (type n = CONDITIONAL).

(** One round of the loop of [_add_sequential_edges]. *)
Definition sequential_step (nodes : list NodeConfig) (g : StateGraph) (i : nat)
    : StateGraph :=
  match nodes !! i, nodes !! (i + 1)%nat with
  | Some a, Some b =>
      if is_conditional a then g else add_edge g (name a) (name b)
  | _, _ => g
  end.

Definition _add_sequential_edges (g : StateGraph) (nodes : list NodeConfig)
    : StateGraph :=
  let g := foldl (sequential_step nodes) g (seq 0 (length nodes - 1)) in
  match last nodes with
  | Some n => if is_conditional n then g else add_edge g (name n) END
  | None => g
  end.

Definition _add_parallel_edges (g : StateGraph) (nodes : list NodeConfig)
    : StateGraph :=
  foldl (fun g node => if is_conditional node then g
                       else add_edge g (name node) END) g nodes.

(** [if config.edges:]. *)
Definition supplied_edges (config : AgentConfig) : list EdgeConfig :=
  default [] (edges config).

Definition add_direct_edges (g : StateGraph) (es : list EdgeConfig) : StateGraph :=
  foldl (fun g edge => add_edge g (source edge) (target edge)) g es.

Definition _add_conditional_edges (g : StateGraph) (config : AgentConfig)
    : StateGraph :=
  match supplied_edges config with
  | [] => _add_sequential_edges g (nodes config)
  | es => add_direct_edges g es
  end.

(** One round of the default ring of [_add_cyclic_edges]. *)
Definition cyclic_step (nodes : list NodeConfig) (g : StateGraph) (i : nat)
    : StateGraph :=
  let next_idx := ((i + 1) mod length nodes)%nat in
  match nodes !! i, nodes !! next_idx with
  | Some a, Some b =>
      if is_conditional a then g else add_edge g (name a) (name b)
  | _, _ => g
  end.

Definition _add_cyclic_edges (g : StateGraph) (config : AgentConfig) : StateGraph :=
  match supplied_edges config with
  | [] => foldl (cyclic_step (nodes config)) g (seq 0 (length (nodes config)))
  | es => add_direct_edges g es
  end.

(** The truth value of [eval(edge.condition, {"state": state})] of a
    custom edge: a collaborator. *)
Definition edge_evaluator : Type := string -> state -> result bool.

(** The routing function of a conditional custom edge.  The closure reads
    the loop variable [edge] when it is called. *)
Definition edge_router (ev : edge_evaluator) (edge : EdgeConfig) : node_func :=
  fun st =>
    match edge_condition edge with
    | Some c =>
        match ev c st with
        | Ok true => Returned st (RetVal (VStr (target edge)))
        | Ok false => Returned st (RetVal (VStr END))
        | Raise e => Raised st e
        end
    | None =>
        Raised st (Exn TypeError "eval() arg 1 must be a string, bytes or code object")
    end.

Definition _add_custom_edges
    (ev : edge_evaluator) (g : StateGraph) (config : AgentConfig)
    : result StateGraph :=
  match supplied_edges config with
  | [] => Raise (Exn ValueError "Custom workflow requires edges to be specified")
  | es =>
      let final_edge := default {| source := ""; target := ""; edge_condition := None |}
                                (last es) in
      Ok (foldl
            (fun g edge =>
               if negb (falsy_str (edge_condition edge))
               then add_conditional_edges g (source edge) (edge_router ev final_edge)
               else add_edge g (source edge) (target edge))
            g es)
  end.

(** *** [_build_graph] *)

(** The first loop of [_build_graph]: one node function per node
    configuration, registered under the node's name. *)
Fixpoint create_nodes (context : build_context) (g : StateGraph)
    (node_configs : list NodeConfig) : result StateGraph :=
  match node_configs with
  | [] => Ok g
  | node_config :: rest =>
      match create_node node_config context with
      | Ok node_func =>
          create_nodes context
            (if is_conditional node_config
             then add_conditional_edges g (name node_config) node_func
             else add_node g (name node_config) node_func)
            rest
      | Raise e => Raise e
      end
  end.

Definition _build_graph
    (ev : edge_evaluator) (context : build_context) (config : AgentConfig)
    : result StateGraph :=
  match create_nodes context new_graph (nodes config) with
  | Raise e => Raise e
  | Ok g =>
      let wired :=
        match workflow_type config with
        | SEQUENTIAL => Ok (_add_sequential_edges g (nodes config))
        | PARALLEL => Ok (_add_parallel_edges g (nodes config))
        | WF_CONDITIONAL => Ok (_add_conditional_edges g config)
        | CYCLIC => Ok (_add_cyclic_edges g config)
        | WF_CUSTOM => _add_custom_edges ev g config
        end in
      match wired with
      | Raise e => Raise e
      | Ok g =>
          if falsy_str (entry_point config) then
            match nodes config with
            | first :: _ => Ok (set_entry_point g (name first))
            | [] => Raise (Exn IndexError "list index out of range")
            end
          else Ok (set_entry_point g (default "" (entry_point config)))
      end
  end.

(** *** [LangGraphAgent] *)

Record LangGraphAgent : Type := {
  app : MockLangGraphApp;
  config : AgentConfig
}.

(** [AgentBuilder.build]. *)
Definition build
    (ev : edge_evaluator) (context : build_context) (config : AgentConfig)
    : result LangGraphAgent :=
  match _build_graph ev context config with
  | Ok graph => Ok {| app := compile graph; config := config |}
  | Raise e => Raise e
  end.

(** The caller's input: a string or a dictionary. *)
Inductive agent_input : Type :=
  | InputStr (s : string)
  | InputDict (d : state).

Definition user_message (content : value) : value :=
  VDict [("role", VStr "user"); ("content", content)].

Definition _prepare_initial_state (input_data : agent_input) : state :=
  let st := StateManager._get_default_state in
  match input_data with
  | InputStr s =>
      let st := <["input" := VStr s]> st in
      <["messages" := VList [user_message (VStr s)]]> st
  | InputDict d =>
      let st := d ∪ st in
      match d !! "input", d !! "messages" with
      | Some i, None => <["messages" := VList [user_message i]]> st
      | _, _ => st
      end
  end.

Definition _process_result (result : state) : state :=
  let processed : state :=
    <["output" := default VNone (result !! "output")]>
    (<["messages" := default (VList []) (result !! "messages")]>
    (<["metadata" := default (VDict []) (result !! "metadata")]>
    (<["error" := default VNone (result !! "error")]> ∅))) in
  let processed :=
    match result !! "tools_output" with
    | Some v => <["tools_output" := v]> processed
    | None => processed
    end in
  match result !! "intermediate_steps" with
  | Some v => <["intermediate_steps" := v]> processed
  | None => processed
  end.

(** [LangGraphAgent.invoke]: the state the application stops in, and what
    the caller gets. *)
Definition final_state (agent : LangGraphAgent) (input_data : agent_input) : state :=
  app_invoke (app agent) (_prepare_initial_state input_data).

Definition invoke (agent : LangGraphAgent) (input_data : agent_input) : state :=
  _process_result (final_state agent input_data).

End AgentBuilder.

(* ===================================================================== *)
(** ** Example inputs                                                     *)
(* ===================================================================== *)

Module Examples.
Import Config Nodes AgentBuilder.

(** A state whose history holds one message, and an update that assigns
    the [messages] key. *)
Definition one_message_state : state :=
  {["messages" := VList [user_message (VStr "hi")]]}.

Definition empty_history_update : state :=
  {["messages" := VList []]}.

(** An input mapping with a reference to a present key, a reference to a
    missing key and a literal. *)
Definition sample_tool_config : gmap string value :=
  <["query" := VStr "$input"]>
  (<["extra" := VStr "$missing"]>
  (<["limit" := VInt 5]> ∅)).

Definition sample_state : state :=
  <["input" := VStr "weather in Paris"]> StateManager._get_default_state.

(** A conditional node with a branch for the text [False], and an
    evaluator that fails on every expression. *)
Definition router_config : NodeConfig :=
  {| name := "route"; type := CONDITIONAL; description := None;
     prompt := None; tool := None; tool_config := None;
     condition := Some "state['score'] > 1";
     branches := Some (<["False" := "on_false"]> (<["default" := "fallback"]> ∅)) |}.

Definition failing_evaluator : evaluator :=
  fun _ _ => EvalRaises (Exn KeyError "'score'").

(** A human-input node, and a state that carries an answer. *)
Definition ask_config : NodeConfig :=
  {| name := "ask"; type := HUMAN_INPUT; description := Some "Approve?";
     prompt := None; tool := None; tool_config := None;
     condition := None; branches := None |}.

Definition answered_state : state :=
  <["human_input" := VStr "yes"]> sample_state.

(** A custom workflow without edges, with one LLM node that has its
    prompt; and a sequential workflow of an LLM node and a tool node that
    leave out [prompt] and [tool]. *)
Definition node_input (n : string) (t : NodeType) (p tl : field string) : NodeInput :=
  {| in_name := n; in_type := t; in_description := Omitted;
     in_prompt := p; in_tool := tl; in_tool_config := Omitted;
     in_condition := Omitted; in_branches := Omitted |}.

Definition custom_without_edges : AgentInput :=
  {| in_agent_name := "planner";
     in_workflow_type := Some WF_CUSTOM;
     in_nodes := [node_input "think" LLM (Supplied (Some "Plan the task")) Omitted];
     in_edges := Omitted;
     in_entry_point := Omitted;
     in_timeout := None;
     in_max_iterations := None |}.

Definition fields_left_out : AgentInput :=
  {| in_agent_name := "helper";
     in_workflow_type := Some SEQUENTIAL;
     in_nodes := [node_input "think" LLM Omitted Omitted;
                  node_input "act" TOOL Omitted Omitted];
     in_edges := Omitted;
     in_entry_point := Omitted;
     in_timeout := None;
     in_max_iterations := None |}.

(** A sequential workflow that is given an edge. *)
Definition sequential_with_edge : AgentInput :=
  {| in_agent_name := "chain";
     in_workflow_type := None;
     in_nodes := [node_input "think" LLM (Supplied (Some "Plan the task")) Omitted];
     in_edges := Supplied (Some [{| source := "think"; target := "think";
                                    edge_condition := None |}]);
     in_entry_point := Omitted;
     in_timeout := None;
     in_max_iterations := None |}.

(** A build context without collaborators, and agents made of
    human-input nodes only: a cycle with iteration limit 3 and a
    sequence. *)
Definition no_provider (config : NodeConfig) : result node_func :=
  Raise (Exn ValueError "LLM manager not provided in context").

Definition no_registry (config : NodeConfig) : result node_func :=
  Raise (Exn ValueError "Tool manager not provided in context").

Definition plain_context : build_context :=
  {| llm_builder := no_provider;
     tool_builder := no_registry;
     custom_handlers := [];
     condition_evaluator := failing_evaluator |}.

Definition no_edge_conditions : edge_evaluator :=
  fun _ _ => Ok false.

Definition human_node (n : string) : NodeConfig :=
  {| name := n; type := HUMAN_INPUT; description := None;
     prompt := None; tool := None; tool_config := None;
     condition := None; branches := None |}.

Definition two_step (wt : WorkflowType) : AgentConfig :=
  {| agent_name := "review";
     workflow_type := wt;
     nodes := [human_node "ask"; human_node "confirm"];
     edges := None;
     entry_point := None;
     timeout := 300;
     max_iterations := 3 |}.

End Examples.

(* ===================================================================== *)
(** ** The configuration constraints                                      *)
(* ===================================================================== *)

Module Constraints.
Import Config.

Inductive constraint : Type :=
  | PromptRequired
  | ToolRequired
  | EntryPointDeclared
  | NoEdgesForSequential
  | EdgesForCustom.

(** The input breaks the constraint.  For the two node constraints the
    field is supplied, as an empty string or as [None]. *)
Definition violates (inp : AgentInput) (c : constraint) : Prop :=
  match c with
  | PromptRequired =>
      ∃ n v, n ∈ in_nodes inp ∧ in_type n = LLM
             ∧ in_prompt n = Supplied v ∧ falsy_str v = true
  | ToolRequired =>
      ∃ n v, n ∈ in_nodes inp ∧ in_type n = TOOL
             ∧ in_tool n = Supplied v ∧ falsy_str v = true
  | EntryPointDeclared =>
      ∃ s, in_entry_point inp = Supplied (Some s) ∧ s ≠ ""
           ∧ s ∉ map in_name (in_nodes inp)
  | NoEdgesForSequential =>
      ∃ e es, in_edges inp = Supplied (Some (e :: es))
              ∧ default SEQUENTIAL (in_workflow_type inp) = SEQUENTIAL
  | EdgesForCustom =>
      in_workflow_type inp = Some WF_CUSTOM
      ∧ default [] (field_value (in_edges inp)) = []
  end.

(** The message that names the constraint. *)
Definition message (inp : AgentInput) (c : constraint) : string :=
  match c with
  | PromptRequired => "Prompt is required for LLM nodes"
  | ToolRequired => "Tool name is required for tool nodes"
  | EntryPointDeclared =>
      "Entry point '" +:+ default "" (field_value (in_entry_point inp))
                      +:+ "' not found in nodes"
  | NoEdgesForSequential => "Custom edges are not allowed for sequential workflows"
  | EdgesForCustom => "Custom workflow requires edges to be specified"
  end.

(** Construction fails and reports the message. *)
Definition rejected_on_construction (inp : AgentInput) (msg : string) : Prop :=
  ∃ errs, AgentConfig_new inp = Invalid errs ∧ msg ∈ errs.*2.

End Constraints.

(* ===================================================================== *)
(** ** Reading a compiled graph                                           *)
(* ===================================================================== *)

Module Paths.
Import Config AgentBuilder.

(** The targets of the static edges that leave a node. *)
Definition successors (es : list (string * string)) (source : string) : list string :=
  (filter (fun e => e.1 = source) es).*2.

(** Following static edges from a node: the nodes visited, and whether the
    terminal marker was reached. *)
Fixpoint walk (es : list (string * string)) (fuel : nat) (current : string)
    : list string * bool :=
  if String.eqb current END then ([], true)
  else
    match fuel with
    | O => ([], false)
    | S fuel =>
        match successors es current with
        | next :: _ =>
            let '(visited, reached) := walk es fuel next in
            (current :: visited, reached)
        | [] => ([current], false)
        end
    end.

(** The chain of a node list: every node that is not conditional points
    to the node declared after it, the last one to the terminal marker. *)
Fixpoint chain (nodes : list NodeConfig) : list (string * string) :=
  match nodes with
  | [] => []
  | a :: rest =>
      (if is_conditional a then []
       else [(name a, match rest with b :: _ => name b | [] => END end)])
      ++ chain rest
  end.

(** The links between neighbours only, without the one to the terminal
    marker: what the loop of [_add_sequential_edges] adds. *)
Fixpoint links (nodes : list NodeConfig) : list (string * string) :=
  match nodes with
  | a :: (b :: _) as rest =>
      (if is_conditional a then [] else [(name a, name b)]) ++ links rest
  | _ => []
  end.


End Paths.

(* ===================================================================== *)
(** ** Insertion-ordered dictionaries                                     *)
(* ===================================================================== *)

Module OrderedDict.

(** [d.get(k)]. *)
Fixpoint dict_get {A} (k : string) (d : list (string * A)) : option A :=
  match d with
  | [] => None
  | (k', v) :: rest => if String.eqb k' k then Some v else dict_get k rest
  end.

(** [del d[k]] when the key is there, nothing otherwise. *)
Fixpoint dict_del {A} (k : string) (d : list (string * A)) : list (string * A) :=
  match d with
  | [] => []
  | (k', v) :: rest =>
      if String.eqb k' k then rest else (k', v) :: dict_del k rest
  end.

End OrderedDict.

(* ===================================================================== *)
(** ** core/state.py: repeated counting                                   *)
(* ===================================================================== *)

(** [n] calls of [increment_iterations] in a row; the last returned
    counter, [None] when no call was made. *)
Fixpoint increment_repeatedly (n : nat) (self : state) : result (state * option value) :=
  match n with
  | O => Ok (self, None)
  | S n =>
      match StateManager.increment_iterations self with
      | Ok (self', counter) =>
          match n with
          | O => Ok (self', Some counter)
          | S _ => increment_repeatedly n self'
          end
      | Raise e => Raise e
      end
  end.

(* ===================================================================== *)
(** ** core/tools.py: the tool registry                                   *)
(* ===================================================================== *)

Module Tools.
Import AgentBuilder OrderedDict.

Section registry.
Context {tool : Type}.

Record ToolRegistry : Type := {
  _tools : list (string * tool);
  _tool_configs : list (string * gmap string value)
}.

(** [register_tool]: [config or {}]. *)
Definition register_tool (self : ToolRegistry) (name : string) (t : tool)
    (config : option (gmap string value)) : ToolRegistry :=
  {| _tools := dict_set name t (_tools self);
     _tool_configs := dict_set name (default ∅ config) (_tool_configs self) |}.

(** [__init__] with [_register_default_tools]; [web_search] is the
    search tool instance. *)
Definition new_registry (web_search : tool) : ToolRegistry :=
  register_tool {| _tools := []; _tool_configs := [] |} "web_search" web_search
    (Some (<["description" := VStr "Search the web for information"]>
           (<["category" := VStr "search"]> ∅))).

Definition get_tool (self : ToolRegistry) (name : string) : result tool :=
  match dict_get name (_tools self) with
  | Some t => Ok t
  | None => Raise (Exn ValueError ("Tool '" +:+ name +:+ "' not found in registry"))
  end.

(** [get_tools]: the list comprehension stops at the first name that is
    not registered. *)
Fixpoint get_tools (self : ToolRegistry) (names : list string) : result (list tool) :=
  match names with
  | [] => Ok []
  | name :: rest =>
      match get_tool self name with
      | Ok t =>
          match get_tools self rest with
          | Ok ts => Ok (t :: ts)
          | Raise e => Raise e
          end
      | Raise e => Raise e
      end
  end.

Definition list_tools (self : ToolRegistry) : list string := (_tools self).*1.

Definition get_tool_config (self : ToolRegistry) (name : string) : gmap string value :=
  default ∅ (dict_get name (_tool_configs self)).

End registry.

Arguments ToolRegistry tool : clear implicits.

End Tools.

(* ===================================================================== *)
(** ** core/llm_factory.py: the LLM manager                               *)
(* ===================================================================== *)

Module LLMFactory.

Section manager.
(** Configuration values, LLM instances, and [LLMFactory.create_llm] applied
    to the keyword dictionary: collaborators. *)
Context {V llm : Type} (create_llm : gmap string V -> result llm).

Record LLMManager : Type := {
  default_config : gmap string V;
  _llm_cache : gmap string llm
}.

(** [__init__]. *)
Definition new_manager (default_config : gmap string V) : LLMManager :=
  {| default_config := default_config; _llm_cache := ∅ |}.

(** [if cache_key:]. *)
Definition usable_key (cache_key : option string) : option string :=
  match cache_key with
  | Some k => if String.eqb k "" then None else Some k
  | None => None
  end.

Definition get_llm (self : LLMManager) (node_config : option (gmap string V))
    (cache_key : option string) : result (LLMManager * llm) :=
  let config :=
    match node_config with
    | Some nc => if bool_decide (nc = ∅) then default_config self
                 else nc ∪ default_config self
    | None => default_config self
    end in
  match usable_key cache_key ≫= fun k => _llm_cache self !! k with
  | Some cached => Ok (self, cached)
  | None =>
      match create_llm config with
      | Ok l =>
          match usable_key cache_key with
          | Some k =>
              Ok ({| default_config := default_config self;
                     _llm_cache := <[k := l]> (_llm_cache self) |}, l)
          | None => Ok (self, l)
          end
      | Raise e => Raise e
      end
  end.

Definition clear_cache (self : LLMManager) : LLMManager :=
  {| default_config := default_config self; _llm_cache := ∅ |}.

End manager.

End LLMFactory.

(* ===================================================================== *)
(** ** core/nodes.py: the LLM node and the tool node                      *)
(* ===================================================================== *)

Module NodeUnits.
Import Config Nodes AgentBuilder OrderedDict.

(** The double quote of Python's error texts. *)
Definition dq : string := String (Ascii.ascii_of_nat 34) EmptyString.

(** [isinstance(m, SystemMessage)]. *)
Definition is_system_message (m : value) : bool :=
  match m with
  | VMsg role _ => String.eqb role "system"
  | _ => false
  end.

(** [any(isinstance(m, SystemMessage) for m in messages)]: a string is
    iterated by characters and a dictionary by keys, none of which is a
    message. *)
Definition any_system_message (messages : value) : result bool :=
  match messages with
  | VList l => Ok (existsb is_system_message l)
  | VStr _ => Ok false
  | VDict _ => Ok false
  | v => Raise (Exn TypeError ("'" +:+ type_name v +:+ "' object is not iterable"))
  end.

(** [[m] + messages]. *)
Definition prepend_message (m : value) (messages : value) : result value :=
  match messages with
  | VList l => Ok (VList (m :: l))
  | v => Raise (Exn TypeError ("can only concatenate list (not " +:+ dq
                               +:+ type_name v +:+ dq +:+ ") to list"))
  end.

(** [messages + [response]]. *)
Definition append_message (messages : value) (response : value) : result value :=
  match messages with
  | VList l => Ok (VList (l ++ [response]))
  | VStr _ => Raise (Exn TypeError ("can only concatenate str (not " +:+ dq
                                    +:+ "list" +:+ dq +:+ ") to str"))
  | v => Raise (Exn TypeError ("unsupported operand type(s) for +: '"
                               +:+ type_name v +:+ "' and 'list'"))
  end.

(** The message list handed to the provider: the prompt goes first, as a
    system message, unless it is empty or a system message is there. *)
Definition with_system_prompt (config : NodeConfig) (messages : value) : result value :=
  if falsy_str (prompt config) then Ok messages
  else
    match any_system_message messages with
    | Ok true => Ok messages
    | Ok false =>
        prepend_message (SystemMessage (VStr (default "" (prompt config)))) messages
    | Raise e => Raise e
    end.

(** [llm_node]; [llm_invoke] is [llm.invoke] of the node's LLM. *)
Definition llm_node (llm_invoke : value -> result value) (config : NodeConfig)
    : node_func :=
  fun st =>
    let st := <["current_node" := VStr (name config)]> st in
    match with_system_prompt config (get_messages st) with
    | Raise e => record_error st e
    | Ok messages =>
        match llm_invoke messages with
        | Raise e => record_error st e
        | Ok response =>
            match append_message messages response with
            | Raise e => record_error st e
            | Ok history =>
                let st := <["messages" := history]> st in
                match content_of response with
                | Raise e => record_error st e
                | Ok c =>
                    let st := <["output" := c]> st in
                    Returned st (RetDict st)
                end
            end
        end
    end.

(** [LLMNodeBuilder.build]; [get_llm] stands for the LLM manager of the
    context and gives the [invoke] of the node's LLM.  The fallback retry
    decorator returns the function as it is. *)
Definition LLMNodeBuilder_build
    (llm_manager : option (NodeConfig -> result (value -> result value)))
    (config : NodeConfig) : result node_func :=
  match llm_manager with
  | None => Raise (Exn ValueError "LLM manager not provided in context")
  | Some get_llm =>
      match get_llm config with
      | Ok llm_invoke => Ok (llm_node llm_invoke config)
      | Raise e => Raise e
      end
  end.

(** A tool, as the node uses it: its [invoke]. *)
Definition tool : Type := gmap string value -> result value.

(** [state["tools_output"][name] = result]. *)
Definition set_item (container : value) (key : string) (v : value) : result value :=
  match container with
  | VDict d => Ok (VDict (dict_set key v d))
  | VList _ => Raise (Exn TypeError "list indices must be integers or slices, not str")
  | c => Raise (Exn TypeError ("'" +:+ type_name c
                               +:+ "' object does not support item assignment"))
  end.

(** [str(config.tool)]. *)
Definition tool_label (config : NodeConfig) : string :=
  default "None" (Config.tool config).

(** [tool_node]; [render] is [str] on the results of the tool. *)
Definition tool_node (render : value -> string) (tool_invoke : tool)
    (config : NodeConfig) : node_func :=
  fun st =>
    let st := <["current_node" := VStr (name config)]> st in
    match _prepare_tool_input st (tool_config config) with
    | Raise e => record_error st e
    | Ok tool_input =>
        match tool_invoke tool_input with
        | Raise e => record_error st e
        | Ok result =>
            let tools_output := default (VDict []) (st !! "tools_output") in
            let st := <["tools_output" := tools_output]> st in
            match set_item tools_output (name config) result with
            | Raise e => record_error st e
            | Ok tools_output =>
                let st := <["tools_output" := tools_output]> st in
                match get_messages st with
                | VList messages =>
                    let text := "Tool " +:+ tool_label config
                                +:+ " result: " +:+ render result in
                    let st := <["messages" := VList (messages ++ [AIMessage (VStr text)])]> st in
                    Returned st (RetDict st)
                | v => record_error st (no_attribute v "append")
                end
            end
        end
    end.

(** [ToolNodeBuilder.build]: the tool is looked up when the node is
    built. *)
Definition ToolNodeBuilder_build (render : value -> string)
    (tool_manager : option (Tools.ToolRegistry tool))
    (config : NodeConfig) : result node_func :=
  match tool_manager with
  | None => Raise (Exn ValueError "Tool manager not provided in context")
  | Some registry =>
      match Config.tool config with
      | Some tool_name =>
          match Tools.get_tool registry tool_name with
          | Ok t => Ok (tool_node render t config)
          | Raise e => Raise e
          end
      | None => Raise (Exn ValueError "Tool 'None' not found in registry")
      end
  end.

End NodeUnits.

(* ===================================================================== *)
(** ** builders/agent_builder.py: streaming and the run configuration      *)
(* ===================================================================== *)

Module Streaming.
Import Config Nodes AgentBuilder.

(** The loop of [MockLangGraphApp.astream]: one event per node called,
    with the state as it is when the event is yielded. *)
Fixpoint stream_nodes (nodes : list (string * node_func)) (current_state : state)
    : list (string * state) :=
  match nodes with
  | [] => []
  | (node_name, node_func) :: rest =>
      match node_func current_state with
      | Returned st r =>
          let current_state := apply_result st r in
          (node_name, current_state) :: stream_nodes rest current_state
      | Raised st e =>
          [(node_name, <["error" := VStr (exn_str e)]> st)]
      end
  end.

(** [LangGraphAgent.astream]. *)
Definition astream (agent : LangGraphAgent) (input_data : agent_input)
    : list (string * state) :=
  stream_nodes (app_nodes (app agent)) (_prepare_initial_state input_data).

(** [_prepare_run_config]. *)
Definition _prepare_run_config (config : option state) (thread_id : option string)
    : state :=
  let run_config : state := {["configurable" := VDict []]} in
  let run_config :=
    match thread_id with
    | Some t => if String.eqb t "" then run_config
                else <["configurable" := VDict [("thread_id", VStr t)]]> run_config
    | None => run_config
    end in
  match config with
  | Some c => if bool_decide (c = ∅) then run_config else c ∪ run_config
  | None => run_config
  end.

(** The graph before the entry point is set. *)
Definition wired_graph (ev : edge_evaluator) (context : build_context)
    (cfg : AgentConfig) : result StateGraph :=
  match create_nodes context new_graph (nodes cfg) with
  | Raise e => Raise e
  | Ok g =>
      match workflow_type cfg with
      | SEQUENTIAL => Ok (_add_sequential_edges g (nodes cfg))
      | PARALLEL => Ok (_add_parallel_edges g (nodes cfg))
      | WF_CONDITIONAL => Ok (_add_conditional_edges g cfg)
      | CYCLIC => Ok (_add_cyclic_edges g cfg)
      | WF_CUSTOM => _add_custom_edges ev g cfg
      end
  end.

(** The same configuration with another entry point. *)
Definition with_entry_point (ep : option string) (cfg : AgentConfig) : AgentConfig :=
  {| agent_name := agent_name cfg;
     workflow_type := workflow_type cfg;
     nodes := nodes cfg;
     edges := edges cfg;
     entry_point := ep;
     timeout := timeout cfg;
     max_iterations := max_iterations cfg |}.

End Streaming.

(* ===================================================================== *)
(** ** api/server.py: the agent manager                                   *)
(* ===================================================================== *)

Module Server.
Import Config Nodes AgentBuilder OrderedDict.

Section manager.
(** The builder of the manager: its evaluator of edge conditions and its
    build context. *)
Context (ev : edge_evaluator) (context : build_context).

(** [self.agents]. *)
Definition AgentManager : Type := list (string * LangGraphAgent).

Definition create_agent (self : AgentManager) (config : AgentConfig)
    : result (AgentManager * string) :=
  match build ev context config with
  | Ok agent => Ok (dict_set (agent_name config) agent self, agent_name config)
  | Raise e => Raise e
  end.

Definition get_agent (self : AgentManager) (name : string) : result LangGraphAgent :=
  match dict_get name self with
  | Some agent => Ok agent
  | None => Raise (Exn ValueError ("Agent '" +:+ name +:+ "' not found"))
  end.

Definition list_agents (self : AgentManager) : list string := self.*1.

Definition delete_agent (self : AgentManager) (name : string) : AgentManager :=
  dict_del name self.

End manager.

End Server.

(* ===================================================================== *)
(** ** Deciding what construction accepts                                 *)
(* ===================================================================== *)

Module Accepts.
Import Config.

Definition is_valid {A} (v : validated A) : bool :=
  match v with Valid _ => true | Invalid _ => false end.

(** A supplied field that is empty or null. *)
Definition supplied_falsy (f : field string) : bool :=
  match f with
  | Supplied v => falsy_str v
  | Omitted => false
  end.

Definition node_rejected (n : NodeInput) : bool :=
  (bool_decide (in_type n = LLM) && supplied_falsy (in_prompt n))
  || (bool_decide (in_type n = TOOL) && supplied_falsy (in_tool n)).

Definition edges_rejected (inp : AgentInput) : bool :=
  match in_edges inp with
  | Supplied (Some (_ :: _)) =>
      bool_decide (default SEQUENTIAL (in_workflow_type inp) = SEQUENTIAL)
  | _ => false
  end.

Definition entry_point_rejected (inp : AgentInput) : bool :=
  match in_entry_point inp with
  | Supplied (Some s) =>
      negb (String.eqb s "") && negb (bool_decide (s ∈ map in_name (in_nodes inp)))
  | _ => false
  end.

End Accepts.

(* ===================================================================== *)
(** ** Further example inputs                                             *)
(* ===================================================================== *)

Module MoreExamples.
Import Nodes AgentBuilder NodeUnits Config.

(** A state whose history ends in a message object, and one whose
    [messages] entry is not a list while an answer is pending. *)
Definition replied_state : state :=
  <["messages" := VList [AIMessage (VStr "42")]]> Examples.sample_state.

Definition broken_history_state : state :=
  <["messages" := VNone]> Examples.answered_state.

(** An LLM node with a prompt, a provider that always answers, and one
    that is out of service. *)
Definition llm_config : NodeConfig :=
  {| name := "think"; type := LLM; description := None;
     prompt := Some "Be brief"; tool := None; tool_config := None;
     condition := None; branches := None |}.

Definition answering_llm : value -> result value :=
  fun _ => Ok (AIMessage (VStr "Paris")).

Definition failing_llm : value -> result value :=
  fun _ => Raise (Exn OtherError "rate limit").

(** A tool node, its tool, and the rendering of strings. *)
Definition search_config : NodeConfig :=
  {| name := "lookup"; type := TOOL; description := None;
     prompt := None; tool := Some "web_search";
     tool_config := Some (<["query" := VStr "$input"]> ∅);
     condition := None; branches := None |}.

Definition search_tool : NodeUnits.tool :=
  fun _ => Ok (VStr "sunny").

Definition render_text (v : value) : string :=
  match v with VStr s => s | _ => type_name v end.

(** An LLM factory that answers every configuration, and one that is
    never to be asked. *)
Definition mock_factory : gmap string value -> result string :=
  fun _ => Ok "mock-model".

Definition unavailable_factory : gmap string value -> result string :=
  fun _ => Raise (Exn ValueError "Unsupported LLM provider").

(** A cycle of two nodes, and a custom workflow with two conditional
    edges. *)
Definition ring_config : AgentConfig := Examples.two_step CYCLIC.

Definition first_edge : EdgeConfig :=
  {| source := "ask"; target := "confirm"; edge_condition := Some "state['ok']" |}.

Definition last_edge : EdgeConfig :=
  {| source := "confirm"; target := "ask"; edge_condition := Some "state['retry']" |}.

Definition custom_config : AgentConfig :=
  {| agent_name := "custom";
     workflow_type := WF_CUSTOM;
     nodes := [Examples.human_node "ask"; Examples.human_node "confirm"];
     edges := Some [first_edge; last_edge];
     entry_point := None;
     timeout := 300;
     max_iterations := 10 |}.


(** A configuration input without nodes. *)
Definition no_nodes_input : AgentInput :=
  {| in_agent_name := "empty";
     in_workflow_type := None;
     in_nodes := [];
     in_edges := Omitted;
     in_entry_point := Omitted;
     in_timeout := None;
     in_max_iterations := None |}.









End MoreExamples.

(* ===================================================================== *)
(** ** State container: merging and key preservation                       *)
(* ===================================================================== *)

Section state_container.
Implicit Types (s u : state) (k : string) (x y : list value).

Lemma update_lookup s u k :
  StateManager.update s u !! k =
    match u !! k with Some v => Some v | None => s !! k end.
Proof.
  unfold StateManager.update. rewrite lookup_union.
  destruct (u !! k), (s !! k); reflexivity.
Qed.

Lemma update_dom s u : dom s ⊆ dom (StateManager.update s u).
Proof. unfold StateManager.update. rewrite dom_union_L. set_solver. Qed.

Lemma add_messages_prefix x y : x `prefix_of` add_messages x y.
Proof. exists y. reflexivity. Qed.

Lemma add_messages_length x y :
  length (add_messages x y) = (length x + length y)%nat.
Proof. unfold add_messages. apply length_app. Qed.

Lemma add_message_dom s m :
  match StateManager.add_message s m with
  | Ok s' => dom s ⊆ dom s'
  | Raise _ => True
  end.
Proof.
  unfold StateManager.add_message.
  destruct (s !! "messages") as [v|] eqn:Hm.
  - rewrite Hm. destruct v; try exact I. rewrite dom_insert_L. set_solver.
  - rewrite lookup_insert_eq. rewrite !dom_insert_L. set_solver.
Qed.

Lemma increment_iterations_dom s :
  match StateManager.increment_iterations s with
  | Ok (s', _) => dom s ⊆ dom s'
  | Raise _ => True
  end.
Proof.
  unfold StateManager.increment_iterations.
  destruct (s !! "iterations") as [[]|]; try exact I;
    rewrite dom_insert_L; set_solver.
Qed.

End state_container.

(** C1, as stated, fails for [StateManager.update]: an update that assigns
    the [messages] key replaces the history, here by an empty one, so the
    old history is not a prefix of the new one and the history gets
    shorter. *)
Lemma update_replaces_history :
  ¬ (messages_of Examples.one_message_state
       `prefix_of`
     messages_of (StateManager.update Examples.one_message_state
                                      Examples.empty_history_update))
  ∧ (length (messages_of (StateManager.update Examples.one_message_state
                                              Examples.empty_history_update))
     < length (messages_of Examples.one_message_state))%nat.
Proof.
  assert (Hm : messages_of (StateManager.update Examples.one_message_state
                              Examples.empty_history_update) = []).
  { unfold messages_of. rewrite update_lookup. reflexivity. }
  rewrite Hm. split.
  - intros [k Hk]. discriminate Hk.
  - vm_compute. lia.
Qed.

(** C1 (amended): the [add_messages] merge keeps the old history as a
    prefix of the merged one, which is therefore at least as long;
    [StateManager.update] leaves the [messages] entry as it was when the
    update does not assign that key, and takes the update's value, like for
    any other key, when it does. *)
Theorem message_history_merge (s u : state) (x y : list value) :
  x `prefix_of` add_messages x y
  ∧ (length x ≤ length (add_messages x y))%nat
  ∧ StateManager.update s u !! "messages" =
      match u !! "messages" with
      | Some v => Some v
      | None => s !! "messages"
      end
  ∧ messages_of (StateManager.update s u) =
      match u !! "messages" with
      | Some _ => messages_of u
      | None => messages_of s
      end.
Proof.
  split; [apply add_messages_prefix|].
  split; [rewrite add_messages_length; lia|].
  split; [apply update_lookup|].
  unfold messages_of. rewrite update_lookup.
  destruct (u !! "messages"); reflexivity.
Qed.

(** C9: no operation of the state container drops a key.  After
    [update(u)] the key set contains the key set before, and every key,
    declared in the schema or not, holds the value [u] assigns to it or
    else the value it had; [snapshot] has the same items; [set_error],
    [clear_error], and [add_message] and [increment_iterations] when they
    return, keep all keys. *)
Theorem state_operations_keep_keys (s u : state) (k : string) (m : value) (e : string) :
  dom s ⊆ dom (StateManager.update s u)
  ∧ StateManager.update s u !! k =
      match u !! k with Some v => Some v | None => s !! k end
  ∧ StateManager.snapshot s = s
  ∧ dom s ⊆ dom (StateManager.set_error s e)
  ∧ dom s ⊆ dom (StateManager.clear_error s)
  ∧ match StateManager.add_message s m with
    | Ok s' => dom s ⊆ dom s'
    | Raise _ => True
    end
  ∧ match StateManager.increment_iterations s with
    | Ok (s', _) => dom s ⊆ dom s'
    | Raise _ => True
    end.
Proof.
  split; [apply update_dom|].
  split; [apply update_lookup|].
  split; [reflexivity|].
  split; [unfold StateManager.set_error; rewrite dom_insert_L; set_solver|].
  split; [unfold StateManager.clear_error; rewrite dom_insert_L; set_solver|].
  split; [apply add_message_dom | apply increment_iterations_dom].
Qed.

(* ===================================================================== *)
(** ** Tool node: preparing the tool input                                *)
(* ===================================================================== *)

Section tool_input.
Import Nodes.
Implicit Types (st : state) (tc : gmap string value).

Lemma resolve_reference_dollar st state_key :
  resolve_reference st (VStr ("$" +:+ state_key)) = default VNone (st !! state_key).
Proof. reflexivity. Qed.

Lemma resolve_reference_literal st v :
  (∀ state_key, v ≠ VStr ("$" +:+ state_key)) → resolve_reference st v = v.
Proof.
  intros Hlit. destruct v as [| | |s| | |]; try reflexivity.
  destruct s as [|c rest]; [reflexivity|]. simpl.
  destruct (Ascii.eqb c "$") eqn:Hc; [|reflexivity].
  apply Ascii.eqb_eq in Hc. subst c. destruct (Hlit rest). reflexivity.
Qed.

(** The loop over [tool_config.items()] resolves every value and keeps
    every key. *)
Lemma mapping_loop st tc :
  map_fold (fun key value tool_input => <[key := resolve_reference st value]> tool_input)
           ∅ tc
  = resolve_reference st <$> tc.
Proof.
  apply (map_fold_weak_ind
           (fun r m => r = resolve_reference st <$> m)).
  - rewrite fmap_empty. reflexivity.
  - intros i x m r _ ->. rewrite fmap_insert. reflexivity.
Qed.

Lemma prepare_with_mapping st tc :
  tc ≠ ∅ →
  _prepare_tool_input st (Some tc) = Ok (resolve_reference st <$> tc).
Proof.
  intros Hne. unfold _prepare_tool_input.
  rewrite bool_decide_eq_false_2 by exact Hne.
  rewrite mapping_loop. reflexivity.
Qed.

(** Without a mapping, a history that ends in a message object gives that
    message's content. *)
Lemma default_input_of_message_object st l role c :
  st !! "messages" = Some (VList (l ++ [VMsg role c])) →
  _prepare_tool_input st None = Ok {["input" := c]}.
Proof.
  intros Hm. unfold _prepare_tool_input, default_tool_input, get_messages.
  rewrite Hm. simpl.
  assert (Ht : match l ++ [VMsg role c] with [] => false | _ => true end = true)
    by (destruct l; reflexivity).
  rewrite Ht, last_snoc. reflexivity.
Qed.

(** Without a mapping and without messages, the tool input is empty. *)
Lemma default_input_of_empty_history st :
  get_messages st = VList [] → _prepare_tool_input st None = Ok ∅.
Proof.
  intros Hm. unfold _prepare_tool_input, default_tool_input.
  rewrite Hm. reflexivity.
Qed.

End tool_input.

(** C5: with an input mapping, preparing the tool input never raises and
    keeps the mapping's keys; a value [$name] becomes the value the state
    holds under [name] at that moment, or [None] when the state has no such
    key, and any other value is passed on as it is. *)
Theorem tool_input_reference_resolution
    (st : state) (tc : gmap string value) (key : string) (v : value)
    (Hkey : tc !! key = Some v) :
  ∃ tool_input,
    Nodes._prepare_tool_input st (Some tc) = Ok tool_input
    ∧ dom tool_input = dom tc
    ∧ (∀ state_key, v = VStr ("$" +:+ state_key) →
         tool_input !! key = Some (default VNone (st !! state_key)))
    ∧ ((∀ state_key, v ≠ VStr ("$" +:+ state_key)) →
         tool_input !! key = Some v).
Proof.
  assert (Hne : tc ≠ ∅) by (intros ->; rewrite lookup_empty in Hkey; discriminate).
  exists (Nodes.resolve_reference st <$> tc).
  split; [apply prepare_with_mapping, Hne|].
  split; [apply dom_fmap_L|].
  rewrite lookup_fmap, Hkey. simpl. split.
  - intros state_key ->. rewrite resolve_reference_dollar. reflexivity.
  - intros Hlit. rewrite resolve_reference_literal by exact Hlit. reflexivity.
Qed.

Lemma tool_input_reference_resolution_witness :
  Examples.sample_tool_config !! "query" = Some (VStr "$input")
  ∧ ∃ tool_input,
      Nodes._prepare_tool_input Examples.sample_state (Some Examples.sample_tool_config)
        = Ok tool_input
      ∧ tool_input !! "query" = Some (VStr "weather in Paris").
Proof.
  split; [reflexivity|].
  destruct (tool_input_reference_resolution Examples.sample_state
              Examples.sample_tool_config "query" (VStr "$input") eq_refl)
    as (tool_input & Hrun & _ & Href & _).
  exists tool_input. split; [exact Hrun|].
  exact (Href "input" eq_refl).
Defined.

(** C10 at a state the agent itself prepares: for the string input ["hi"]
    the history is one [{"role": "user", "content": "hi"}] dictionary, and a
    tool node without input mapping raises on its [content] attribute
    instead of passing [{"input": "hi"}]. *)
Theorem default_tool_input_on_prepared_state :
  Nodes._prepare_tool_input
    (AgentBuilder._prepare_initial_state (AgentBuilder.InputStr "hi")) None
  = Raise (Exn AttributeError "'dict' object has no attribute 'content'")
  ∧ messages_of (AgentBuilder._prepare_initial_state (AgentBuilder.InputStr "hi"))
    = [VDict [("role", VStr "user"); ("content", VStr "hi")]].
Proof. split; reflexivity. Qed.

(* ===================================================================== *)
(** ** Conditional node                                                   *)
(* ===================================================================== *)

(** C4, as stated, fails on an evaluation error: the error is turned into
    the result [False], so a branch table with a ["False"] entry sends the
    node there and not to its ["default"] entry. *)
Lemma evaluation_error_takes_False_branch :
  Nodes.conditional_node Examples.failing_evaluator Examples.router_config ∅
  = Nodes.Returned {["current_node" := VStr "route"]}
                   (Nodes.RetVal (VStr "on_false"))
  ∧ default ∅ (Config.branches Examples.router_config) !! "default" = Some "fallback"
  ∧ "on_false" ≠ "fallback".
Proof.
  split; [|split].
  - unfold Nodes.conditional_node, Nodes.next_node. simpl.
    rewrite insert_empty. reflexivity.
  - reflexivity.
  - discriminate.
Qed.

(** C4 (amended): a conditional node always returns a routing decision and
    never raises.  With branch table [B] and evaluation result [r] it routes
    to [B[str(r)]], else to [B["default"]], else to the text ["END"]; when
    the evaluator raises, the result is taken to be [False], so the node
    routes to [B["False"]], else to [B["default"]], else to ["END"].  The
    state it leaves has [current_node] set to the node's name. *)
Theorem conditional_node_routing
    (ev : Nodes.evaluator) (config : Config.NodeConfig) (st : state) :
  let B := default ∅ (Config.branches config) in
  let st' := <["current_node" := VStr (Config.name config)]> st in
  let route (key : string) :=
    match B !! key with
    | Some n => n
    | None => match B !! "default" with Some n => n | None => "END" end
    end in
  Nodes.conditional_node ev config st =
    Nodes.Returned st'
      (Nodes.RetVal (VStr
         match Nodes.py_eval ev (Config.condition config) st' with
         | Nodes.EvalReturns r => route (Nodes.py_str r)
         | Nodes.EvalRaises _ => route "False"
         end)).
Proof.
  intros B st' route.
  unfold Nodes.conditional_node, Nodes._parse_condition, Nodes.next_node.
  fold B st'. subst route. simpl.
  destruct (Nodes.py_eval ev (Config.condition config) st') as [r|e]; simpl.
  - destruct (B !! Nodes.py_str r), (B !! "default"); reflexivity.
  - destruct (B !! "False"), (B !! "default"); reflexivity.
Qed.

(* ===================================================================== *)
(** ** Human-input node                                                   *)
(* ===================================================================== *)

(** C7: on a state whose history is a list (or absent), a human-input node
    returns the state without raising, with the node's name and the prompt
    recorded.  Without a pending answer the state is marked as awaiting
    input and the history is untouched; with a pending answer the answer is
    appended to the history as a human message, the awaiting flag is cleared
    and the answer is removed from the state. *)
Theorem human_input_node_behaviour
    (config : Config.NodeConfig) (st : state)
    (Hhistory : get_messages st = VList (messages_of st)) :
  ∃ st',
    Nodes.human_input_node config st = Nodes.Returned st' (Nodes.RetDict st')
    ∧ st' !! "current_node" = Some (VStr (Config.name config))
    ∧ st' !! "human_input_prompt" = Some (VStr (Nodes.human_prompt config))
    ∧ match st !! "human_input" with
      | None =>
          st' !! "needs_human_input" = Some (VBool true)
          ∧ messages_of st' = messages_of st
      | Some answer =>
          st' !! "needs_human_input" = Some (VBool false)
          ∧ messages_of st' = messages_of st ++ [HumanMessage answer]
          ∧ st' !! "human_input" = None
      end.
Proof.
  unfold Nodes.human_input_node.
  set (st2 := <["human_input_prompt" := _]> (<["needs_human_input" := _]>
               (<["current_node" := _]> st))).
  assert (Hans : st2 !! "human_input" = st !! "human_input")
    by (subst st2; rewrite !lookup_insert_ne by discriminate; reflexivity).
  assert (Hmsg : get_messages st2 = VList (messages_of st)).
  { rewrite <- Hhistory. unfold get_messages. subst st2.
    rewrite !lookup_insert_ne by discriminate. reflexivity. }
  rewrite Hans, Hmsg. destruct (st !! "human_input") as [answer|] eqn:Ha.
  - eexists. split; [reflexivity|]. subst st2.
    unfold messages_of. simplify_map_eq. auto.
  - exists st2. split; [reflexivity|]. subst st2.
    unfold messages_of. simplify_map_eq. auto.
Qed.

Lemma human_input_node_behaviour_witness :
  get_messages Examples.answered_state = VList (messages_of Examples.answered_state)
  ∧ ∃ st',
      Nodes.human_input_node Examples.ask_config Examples.answered_state
        = Nodes.Returned st' (Nodes.RetDict st')
      ∧ st' !! "needs_human_input" = Some (VBool false)
      ∧ messages_of st' = [HumanMessage (VStr "yes")]
      ∧ st' !! "human_input" = None.
Proof.
  split; [reflexivity|].
  destruct (human_input_node_behaviour Examples.ask_config Examples.answered_state eq_refl)
    as (st' & Hrun & _ & _ & Hcase).
  exists st'. split; [exact Hrun|]. exact Hcase.
Defined.

(* ===================================================================== *)
(** ** Configuration model: validation on construction                     *)
(* ===================================================================== *)

Section config_validation.
Import Config Constraints.

Lemma errors_reported {A} (a : A) (errs : error_list) :
  errs ≠ [] →
  match errs with [] => Valid a | e :: es => Invalid (e :: es) end = Invalid errs.
Proof. destruct errs; [congruence | reflexivity]. Qed.

Lemma NodeConfig_new_prompt (n : NodeInput) v :
  in_type n = LLM → in_prompt n = Supplied v → falsy_str v = true →
  ∃ es, NodeConfig_new n = Invalid es
        ∧ "Prompt is required for LLM nodes" ∈ es.*2.
Proof.
  intros Ht Hp Hv. unfold NodeConfig_new. rewrite Ht, Hp.
  unfold validate_field at 1, prompt_required_for_llm. rewrite Hv. simpl.
  eexists. split; [reflexivity|]. simpl. left.
Qed.

Lemma NodeConfig_new_tool (n : NodeInput) v :
  in_type n = TOOL → in_tool n = Supplied v → falsy_str v = true →
  ∃ es, NodeConfig_new n = Invalid es
        ∧ "Tool name is required for tool nodes" ∈ es.*2.
Proof.
  intros Ht Hp Hv. unfold NodeConfig_new. rewrite Ht, Hp.
  unfold validate_field at 2, tool_required_for_tool_node. rewrite Hv. simpl.
  set (ep := (validate_field "prompt" _ _).2).
  assert (Hne : ep ++ [("tool", "Tool name is required for tool nodes")] ≠ [])
    by (destruct ep; discriminate).
  rewrite (errors_reported _ _ Hne).
  eexists. split; [reflexivity|].
  rewrite fmap_app. apply elem_of_app. right. simpl. left.
Qed.

(** An invalid node makes the [nodes] field report that node's messages. *)
Lemma validate_nodes_invalid (l : list NodeInput) n es msg :
  n ∈ l → NodeConfig_new n = Invalid es → msg ∈ es.*2 →
  msg ∈ (validate_nodes l).2.*2.
Proof.
  intros Hin Hn Hmsg. induction l as [|a l IH]; [inversion Hin|].
  simpl. destruct (validate_nodes l) as [cfgs errs] eqn:Hl.
  apply elem_of_cons in Hin as [<-|Hin].
  - rewrite Hn. simpl. rewrite fmap_app. apply elem_of_app. left.
    rewrite <- list_fmap_compose.
    apply list_elem_of_fmap in Hmsg as (e & -> & He).
    apply list_elem_of_fmap. exists e. split; [reflexivity | exact He].
  - specialize (IH Hin). simpl in IH.
    destruct (NodeConfig_new a); simpl; [exact IH|].
    rewrite fmap_app. apply elem_of_app. right. exact IH.
Qed.

(** When no node is rejected, the validated nodes carry the declared
    names. *)
Lemma validate_nodes_names (l : list NodeInput) :
  (validate_nodes l).2 = [] →
  map name (validate_nodes l).1 = map in_name l.
Proof.
  induction l as [|a l IH]; [reflexivity|].
  simpl. destruct (validate_nodes l) as [cfgs errs] eqn:Hl.
  destruct (NodeConfig_new a) as [c|es] eqn:Ha; simpl.
  - intros ->. simpl in IH. rewrite IH by reflexivity. f_equal.
    unfold NodeConfig_new in Ha.
    destruct (_ ++ _) in Ha; [|discriminate]. injection Ha as <-. reflexivity.
  - intros Happ. apply app_eq_nil in Happ as [Hes _].
    unfold NodeConfig_new in Ha.
    destruct (_ ++ _) eqn:He in Ha; [discriminate|]. injection Ha as <-.
    discriminate Hes.
Qed.

Lemma AgentConfig_new_reports (inp : AgentInput) (msg : string) :
  let checked_nodes := validate_nodes (in_nodes inp) in
  let values_nodes :=
    match checked_nodes.2 with [] => checked_nodes.1 | _ => [] end in
  msg ∈ (checked_nodes.2
         ++ (validate_field "edges"
               (fun v => validate_edges v
                           (Some (default SEQUENTIAL (in_workflow_type inp))))
               (in_edges inp)).2
         ++ (validate_field "entry_point"
               (fun v => validate_entry_point v values_nodes)
               (in_entry_point inp)).2).*2 →
  rejected_on_construction inp msg.
Proof.
  intros checked_nodes values_nodes Hin.
  unfold rejected_on_construction, AgentConfig_new.
  fold checked_nodes. fold values_nodes.
  match type of Hin with _ ∈ ?l.*2 => set (errs := l) in * end.
  assert (Hne : errs ≠ []) by (intros E; rewrite E in Hin; inversion Hin).
  rewrite (errors_reported _ _ Hne). exists errs. split; [reflexivity | exact Hin].
Qed.

(** What a successful construction stores for the workflow type and the
    edges. *)
Lemma AgentConfig_new_valid (inp : AgentInput) (cfg : AgentConfig) :
  AgentConfig_new inp = Valid cfg →
  workflow_type cfg = default SEQUENTIAL (in_workflow_type inp)
  ∧ edges cfg =
      (validate_field "edges"
         (fun v => validate_edges v
                     (Some (default SEQUENTIAL (in_workflow_type inp))))
         (in_edges inp)).1.
Proof.
  unfold AgentConfig_new. destruct (_ ++ _ ++ _); [|discriminate].
  intros [= <-]. split; reflexivity.
Qed.

Lemma custom_edges_field (v : field (list EdgeConfig)) :
  (validate_field "edges" (fun v => validate_edges v (Some WF_CUSTOM)) v).1
  = field_value v.
Proof.
  destruct v as [|[[|e es]|]]; reflexivity.
Qed.

Lemma build_needs_custom_edges ev ctx (cfg : AgentConfig) :
  workflow_type cfg = WF_CUSTOM →
  AgentBuilder.supplied_edges cfg = [] →
  (∀ g, AgentBuilder._add_custom_edges ev g cfg
        = Raise (Exn ValueError "Custom workflow requires edges to be specified"))
  ∧ is_ok (AgentBuilder.build ev ctx cfg) = false.
Proof.
  intros Hwt Hes.
  assert (Hraise : ∀ g, AgentBuilder._add_custom_edges ev g cfg
            = Raise (Exn ValueError "Custom workflow requires edges to be specified"))
    by (intros g; unfold AgentBuilder._add_custom_edges; rewrite Hes; reflexivity).
  split; [exact Hraise|].
  unfold AgentBuilder.build, AgentBuilder._build_graph. rewrite Hwt.
  destruct (AgentBuilder.create_nodes ctx AgentBuilder.new_graph (nodes cfg));
    [rewrite Hraise|]; reflexivity.
Qed.

End config_validation.

(** C6, as stated, fails at construction time: a custom workflow without
    edges is constructed, and so is a workflow whose LLM node and tool node
    leave out the [prompt] and [tool] keywords. *)
Lemma unchecked_inputs_are_constructed :
  (∃ cfg, Config.AgentConfig_new Examples.custom_without_edges = Config.Valid cfg
          ∧ Config.workflow_type cfg = Config.WF_CUSTOM
          ∧ Config.edges cfg = None)
  ∧ (∃ cfg, Config.AgentConfig_new Examples.fields_left_out = Config.Valid cfg
            ∧ map (fun n => (Config.type n, Config.prompt n, Config.tool n))
                  (Config.nodes cfg)
              = [(Config.LLM, None, None); (Config.TOOL, None, None)]).
Proof.
  split; eexists; (split; [reflexivity|]); repeat split; reflexivity.
Qed.

(** C6 (amended): constructing a configuration fails, with a validation
    error that carries the message of the constraint, when an LLM node is
    given an empty or null prompt, when a tool node is given an empty or
    null tool name, when a non-empty entry point is not among the declared
    node names, and when edges are given for a sequential workflow.  A
    custom workflow without edges passes construction; every configuration
    so constructed makes the wiring of custom edges raise the error that
    names the constraint, and building the agent fails. *)
Theorem configuration_constraints
    (inp : Config.AgentInput) (c : Constraints.constraint)
    (Hbroken : Constraints.violates inp c) :
  match c with
  | Constraints.EdgesForCustom =>
      ∀ cfg, Config.AgentConfig_new inp = Config.Valid cfg →
        ∀ ev ctx,
          (∀ g, AgentBuilder._add_custom_edges ev g cfg
                = Raise (Exn ValueError (Constraints.message inp c)))
          ∧ is_ok (AgentBuilder.build ev ctx cfg) = false
  | _ => Constraints.rejected_on_construction inp (Constraints.message inp c)
  end.
Proof.
  destruct c; simpl in Hbroken.
  - destruct Hbroken as (n & v & Hin & Ht & Hp & Hv).
    destruct (NodeConfig_new_prompt n v Ht Hp Hv) as (es & Hn & Hmsg).
    apply AgentConfig_new_reports. rewrite fmap_app. apply elem_of_app. left.
    exact (validate_nodes_invalid _ n es _ Hin Hn Hmsg).
  - destruct Hbroken as (n & v & Hin & Ht & Hp & Hv).
    destruct (NodeConfig_new_tool n v Ht Hp Hv) as (es & Hn & Hmsg).
    apply AgentConfig_new_reports. rewrite fmap_app. apply elem_of_app. left.
    exact (validate_nodes_invalid _ n es _ Hin Hn Hmsg).
  - destruct Hbroken as (s & Hep & Hs & Hnot).
    apply AgentConfig_new_reports. rewrite !fmap_app.
    apply elem_of_app. right. apply elem_of_app. right.
    unfold Constraints.message. rewrite Hep. simpl.
    assert (Hempty : String.eqb s "" = false) by (apply String.eqb_neq; exact Hs).
    rewrite Hempty.
    rewrite bool_decide_eq_false_2; [simpl; left|].
    destruct (Config.validate_nodes (Config.in_nodes inp)).2 eqn:Herrs.
    + rewrite validate_nodes_names by exact Herrs. exact Hnot.
    + simpl. apply not_elem_of_nil.
  - destruct Hbroken as (e & es & Hed & Hwt).
    apply AgentConfig_new_reports. rewrite !fmap_app.
    apply elem_of_app. right. apply elem_of_app. left.
    rewrite Hed, Hwt. simpl. left.
  - destruct Hbroken as (Hwt & Hnone).
    intros cfg Hcfg ev ctx.
    destruct (AgentConfig_new_valid inp cfg Hcfg) as (Hw & He).
    rewrite Hwt in Hw, He. simpl in Hw, He.
    rewrite custom_edges_field in He.
    apply build_needs_custom_edges; [exact Hw|].
    unfold AgentBuilder.supplied_edges. rewrite He. exact Hnone.
Qed.

Lemma configuration_constraints_witness :
  Constraints.violates Examples.sequential_with_edge Constraints.NoEdgesForSequential
  ∧ Constraints.rejected_on_construction Examples.sequential_with_edge
      "Custom edges are not allowed for sequential workflows".
Proof.
  assert (Hbroken : Constraints.violates Examples.sequential_with_edge
                      Constraints.NoEdgesForSequential)
    by (simpl; eexists _, _; split; reflexivity).
  split; [exact Hbroken|].
  exact (configuration_constraints Examples.sequential_with_edge
           Constraints.NoEdgesForSequential Hbroken).
Defined.

(* ===================================================================== *)
(** ** Graph builder: sequential wiring                                   *)
(* ===================================================================== *)

Section wiring.
Import Config Nodes AgentBuilder Paths.
Implicit Types (g : StateGraph) (nodes : list NodeConfig) (a : NodeConfig).

Lemma sequential_step_nodes nodes g i :
  graph_nodes (sequential_step nodes g i) = graph_nodes g.
Proof.
  unfold sequential_step.
  destruct (nodes !! i), (nodes !! (i + 1)%nat); try reflexivity.
  destruct (is_conditional _); reflexivity.
Qed.

Lemma sequential_loop_nodes nodes l g :
  graph_nodes (foldl (sequential_step nodes) g l) = graph_nodes g.
Proof.
  revert g. induction l as [|i l IH]; intros g; [reflexivity|].
  simpl. rewrite IH. apply sequential_step_nodes.
Qed.

Lemma _add_sequential_edges_nodes g nodes :
  graph_nodes (_add_sequential_edges g nodes) = graph_nodes g.
Proof.
  unfold _add_sequential_edges.
  destruct (last nodes) as [n|]; [destruct (is_conditional n)|];
    simpl; apply sequential_loop_nodes.
Qed.

Lemma sequential_loop_edges rest : ∀ pre g,
  graph_edges (foldl (sequential_step (pre ++ rest)) g
                     (seq (length pre) (length rest - 1)))
  = graph_edges g ++ links rest.
Proof.
  induction rest as [|a rest IH]; intros pre g.
  - simpl. rewrite app_nil_r. reflexivity.
  - destruct rest as [|b rest].
    + simpl. rewrite app_nil_r. reflexivity.
    + replace (length (a :: b :: rest) - 1)%nat with (S (length (b :: rest) - 1))
        by (simpl; lia).
      rewrite <- cons_seq. simpl foldl.
      assert (Hstep : sequential_step (pre ++ a :: b :: rest) g (length pre)
                      = if is_conditional a then g
                        else add_edge g (name a) (name b)).
      { unfold sequential_step.
        rewrite lookup_app_r by lia. rewrite Nat.sub_diag. simpl.
        rewrite lookup_app_r by lia.
        replace (length pre + 1 - length pre)%nat with 1%nat by lia.
        reflexivity. }
      rewrite Hstep.
      replace (pre ++ a :: b :: rest) with ((pre ++ [a]) ++ b :: rest)
        by (rewrite <- app_assoc; reflexivity).
      replace (S (length pre)) with (length (pre ++ [a]))
        by (rewrite length_app; simpl; lia).
      rewrite IH. change (links (a :: b :: rest))
        with ((if is_conditional a then [] else [(name a, name b)])
              ++ links (b :: rest)).
      destruct (is_conditional a); simpl; [reflexivity|].
      rewrite <- app_assoc. reflexivity.
Qed.

Lemma links_chain nodes :
  links nodes
  ++ match last nodes with
     | Some n => if is_conditional n then [] else [(name n, END)]
     | None => []
     end
  = chain nodes.
Proof.
  induction nodes as [|a [|b rest] IH]; [reflexivity| |].
  - simpl. rewrite app_nil_r. reflexivity.
  - change (last (a :: b :: rest)) with (last (b :: rest)).
    change (links (a :: b :: rest))
      with ((if is_conditional a then [] else [(name a, name b)])
            ++ links (b :: rest)).
    rewrite <- app_assoc, IH. reflexivity.
Qed.

(** The edges [_add_sequential_edges] adds are the chain of the list. *)
Lemma _add_sequential_edges_chain g nodes :
  graph_edges (_add_sequential_edges g nodes) = graph_edges g ++ chain nodes.
Proof.
  rewrite <- links_chain. unfold _add_sequential_edges.
  pose proof (sequential_loop_edges nodes [] g) as Hloop. simpl in Hloop.
  destruct (last nodes) as [n|]; [destruct (is_conditional n)|]; simpl;
    rewrite Hloop; rewrite ?app_nil_r, ?app_assoc; reflexivity.
Qed.







(** *** The node table *)



(** The first loop of [_build_graph] leaves the edges alone and registers
    at most one entry per declared node; with distinct names, one entry
    per node, in declared order. *)
Lemma create_nodes_edges context l : ∀ g g',
  create_nodes context g l = Ok g' → graph_edges g' = graph_edges g.
Proof.
  induction l as [|c l IH]; intros g g'; simpl; [intros [= <-]; reflexivity|].
  destruct (create_node c context) as [f|e]; [|discriminate].
  intros H%IH. rewrite H. destruct (is_conditional c); reflexivity.
Qed.



(** *** The fallback engine *)


(** What [_build_graph] returns for a sequential workflow. *)
Lemma _build_graph_sequential ev context cfg g :
  workflow_type cfg = SEQUENTIAL → _build_graph ev context cfg = Ok g →
  ∃ g1, create_nodes context new_graph (nodes cfg) = Ok g1
        ∧ graph_nodes g = graph_nodes g1
        ∧ graph_edges g = chain (nodes cfg).
Proof.
  intros Hseq. unfold _build_graph. rewrite Hseq.
  destruct (create_nodes context new_graph (nodes cfg)) as [g1|e] eqn:Hg1;
    [|discriminate].
  intros Hg. exists g1. split; [reflexivity|].
  assert (Hentry : ∃ n, g = set_entry_point (_add_sequential_edges g1 (nodes cfg)) n).
  { destruct (falsy_str (entry_point cfg)); [destruct (nodes cfg)|];
      try discriminate; injection Hg as <-; eexists; reflexivity. }
  destruct Hentry as [n ->]. simpl.
  rewrite _add_sequential_edges_nodes, _add_sequential_edges_chain.
  rewrite (create_nodes_edges _ _ _ _ Hg1). split; reflexivity.
Qed.

Lemma add_direct_edges_nodes es : ∀ g,
  graph_nodes (add_direct_edges g es) = graph_nodes g.
Proof.
  unfold add_direct_edges. induction es as [|e es IH]; intros g; [reflexivity|].
  simpl. rewrite IH. reflexivity.
Qed.



End wiring.

(* ===================================================================== *)
(** ** Execution engine: cyclic workflows and the iteration limit          *)
(* ===================================================================== *)




(* ===================================================================== *)
(** ** Execution engine: what [invoke] returns                             *)
(* ===================================================================== *)

(** C8, as stated, fails: after a run of two human-input nodes the final
    state holds [current_node], [input], [context] and [iterations], and
    none of them is in the mapping [invoke] returns. *)
Lemma invoke_drops_state_keys :
  ∃ agent,
    AgentBuilder.build Examples.no_edge_conditions Examples.plain_context
      (Examples.two_step Config.SEQUENTIAL) = Ok agent
    ∧ AgentBuilder.final_state agent (AgentBuilder.InputStr "hi") !! "current_node"
      = Some (VStr "confirm")
    ∧ AgentBuilder.final_state agent (AgentBuilder.InputStr "hi") !! "input"
      = Some (VStr "hi")
    ∧ AgentBuilder.final_state agent (AgentBuilder.InputStr "hi") !! "context"
      = Some (VDict [])
    ∧ AgentBuilder.final_state agent (AgentBuilder.InputStr "hi") !! "iterations"
      = Some (VInt 0)
    ∧ AgentBuilder.invoke agent (AgentBuilder.InputStr "hi") !! "current_node" = None
    ∧ AgentBuilder.invoke agent (AgentBuilder.InputStr "hi") !! "input" = None
    ∧ AgentBuilder.invoke agent (AgentBuilder.InputStr "hi") !! "context" = None
    ∧ AgentBuilder.invoke agent (AgentBuilder.InputStr "hi") !! "iterations" = None.
Proof.
  eexists. split; [reflexivity|]. repeat split; vm_compute; reflexivity.
Qed.

(** C8 (amended): [invoke] returns a selection of the final state.  The
    returned mapping holds [output] and [error] with their final values, or
    [None] when the final state lacks them; [messages] and [metadata] with
    their final values, or an empty list and an empty dictionary;
    [tools_output] and [intermediate_steps] with their final values when
    the final state has them; and no other key. *)
Theorem invoke_returns_selection
    (agent : AgentBuilder.LangGraphAgent) (input_data : AgentBuilder.agent_input)
    (k : string) :
  let final := AgentBuilder.final_state agent input_data in
  AgentBuilder.invoke agent input_data !! k =
    if decide (k = "output") then Some (default VNone (final !! "output"))
    else if decide (k = "error") then Some (default VNone (final !! "error"))
    else if decide (k = "messages") then Some (default (VList []) (final !! "messages"))
    else if decide (k = "metadata") then Some (default (VDict []) (final !! "metadata"))
    else if decide (k = "tools_output") then final !! "tools_output"
    else if decide (k = "intermediate_steps") then final !! "intermediate_steps"
    else None.
Proof.
  intros final. unfold AgentBuilder.invoke. fold final.
  unfold AgentBuilder._process_result.
  destruct (final !! "tools_output") as [t|] eqn:Ht;
    destruct (final !! "intermediate_steps") as [i|] eqn:Hi;
    repeat case_decide; simplify_map_eq; reflexivity.
Qed.

(* ===================================================================== *)
(** ** State container: appending, counting and composing updates          *)
(* ===================================================================== *)

(** X1: [add_message] on a state whose history is a list, or absent,
    returns a state whose history is the old one followed by the new
    message; every other key is untouched. *)
Theorem add_message_appends (s : state) (m : value)
    (Hhistory : get_messages s = VList (messages_of s)) :
  ∃ s', StateManager.add_message s m = Ok s'
        ∧ messages_of s' = messages_of s ++ [m]
        ∧ ∀ k, k ≠ "messages" → s' !! k = s !! k.
Proof.
  unfold StateManager.add_message, get_messages, messages_of in *.
  destruct (s !! "messages") as [v|] eqn:Hm; simpl in *.
  - rewrite Hm. destruct v; try discriminate.
    eexists. split; [reflexivity|]. rewrite lookup_insert_eq. split; [reflexivity|].
    intros k Hk. rewrite lookup_insert_ne by congruence. reflexivity.
  - rewrite lookup_insert_eq. eexists. split; [reflexivity|].
    rewrite lookup_insert_eq. split; [reflexivity|].
    intros k Hk. rewrite !lookup_insert_ne by congruence. reflexivity.
Qed.

Lemma add_message_appends_witness :
  get_messages Examples.sample_state = VList (messages_of Examples.sample_state)
  ∧ ∃ s', StateManager.add_message Examples.sample_state (HumanMessage (VStr "hello"))
          = Ok s'
          ∧ messages_of s' = [HumanMessage (VStr "hello")].
Proof.
  split; [reflexivity|].
  destruct (add_message_appends Examples.sample_state (HumanMessage (VStr "hello")) eq_refl)
    as (s' & Hrun & Hm & _).
  exists s'. split; [exact Hrun | exact Hm].
Defined.

(** X2: a state whose [iterations] entry holds the integer [k] answers the
    [n+1]-th call of [increment_iterations] in a row with [k+n+1] and stores
    that value; a state without the entry raises [KeyError] on the first
    call. *)
Theorem increment_iterations_counts (s : state) (n : nat) :
  match s !! "iterations" with
  | Some (VInt k) =>
      increment_repeatedly (S n) s
      = Ok (<["iterations" := VInt (k + Z.of_nat (S n))]> s,
            Some (VInt (k + Z.of_nat (S n))))
  | None => increment_repeatedly (S n) s = Raise (Exn KeyError "'iterations'")
  | Some _ => True
  end.
Proof.
  destruct (s !! "iterations") as [v|] eqn:Hs.
  - destruct v as [| |k| | | |]; try exact I.
    revert s k Hs. induction n as [|n IH]; intros s k Hs.
    + simpl. unfold StateManager.increment_iterations. rewrite Hs.
      replace (k + 1)%Z with (k + Z.of_nat 1)%Z by lia. reflexivity.
    + change (increment_repeatedly (S (S n)) s)
        with (match StateManager.increment_iterations s with
              | Ok (self', counter) => increment_repeatedly (S n) self'
              | Raise e => Raise e
              end).
      unfold StateManager.increment_iterations at 1. rewrite Hs.
      rewrite (IH (<["iterations" := VInt (k + 1)]> s) (k + 1)%Z)
        by apply lookup_insert_eq.
      rewrite insert_insert_eq.
      replace (k + 1 + Z.of_nat (S n))%Z with (k + Z.of_nat (S (S n)))%Z by lia.
      reflexivity.
  - simpl. unfold StateManager.increment_iterations. rewrite Hs. reflexivity.
Qed.

(** X3: updates compose: applying [u1] and then [u2] is applying the
    update [u1] updated by [u2]; the empty update changes nothing; applying
    the same update twice is applying it once. *)
Theorem update_composes (s u1 u2 : state) :
  StateManager.update (StateManager.update s u1) u2
  = StateManager.update s (StateManager.update u1 u2)
  ∧ StateManager.update s ∅ = s
  ∧ StateManager.update (StateManager.update s u1) u1 = StateManager.update s u1.
Proof.
  unfold StateManager.update. split; [|split].
  - rewrite (assoc_L (∪)). reflexivity.
  - apply (left_id_L ∅ (∪)).
  - rewrite (assoc_L (∪)), (idemp_L (∪)). reflexivity.
Qed.

(* ===================================================================== *)
(** ** Configuration model: what construction accepts                      *)
(* ===================================================================== *)

Section acceptance.
Import Config Accepts.

Lemma NodeConfig_new_decided (n : NodeInput) :
  is_valid (NodeConfig_new n) = negb (node_rejected n).
Proof.
  unfold NodeConfig_new, node_rejected, validate_field,
    prompt_required_for_llm, tool_required_for_tool_node.
  destruct (in_type n), (in_prompt n) as [|p], (in_tool n) as [|t]; simpl;
    try reflexivity;
    try (destruct (falsy_str p); reflexivity);
    try (destruct (falsy_str t); reflexivity).
Qed.

Lemma validate_nodes_decided (l : list NodeInput) :
  bool_decide ((validate_nodes l).2 = []) = negb (existsb node_rejected l).
Proof.
  induction l as [|a l IH]; [reflexivity|].
  simpl. destruct (validate_nodes l) as [cfgs errs] eqn:Hl. simpl in IH.
  pose proof (NodeConfig_new_decided a) as Ha.
  destruct (NodeConfig_new a) as [c|es] eqn:Hn; simpl in *.
  - apply (f_equal negb) in Ha. rewrite negb_involutive in Ha. simpl in Ha.
    rewrite <- Ha. simpl. exact IH.
  - apply (f_equal negb) in Ha. rewrite negb_involutive in Ha. simpl in Ha.
    rewrite <- Ha. simpl. apply bool_decide_eq_false_2.
    unfold NodeConfig_new in Hn.
    destruct (_ ++ _) eqn:He in Hn; [discriminate|]. injection Hn as <-.
    discriminate.
Qed.

End acceptance.

(** X4: constructing a node configuration succeeds exactly when the node
    is not an LLM node given an empty or null prompt and not a tool node
    given an empty or null tool name; the configuration then carries the
    name, the type and the supplied prompt and tool. *)
Theorem node_construction_decided (n : Config.NodeInput) :
  Accepts.is_valid (Config.NodeConfig_new n) = negb (Accepts.node_rejected n)
  ∧ match Config.NodeConfig_new n with
    | Config.Valid c =>
        Config.name c = Config.in_name n
        ∧ Config.type c = Config.in_type n
        ∧ Config.prompt c = Config.field_value (Config.in_prompt n)
        ∧ Config.tool c = Config.field_value (Config.in_tool n)
    | Config.Invalid errs => errs ≠ []
    end.
Proof.
  split; [apply NodeConfig_new_decided|].
  unfold Config.NodeConfig_new, Config.validate_field,
    Config.prompt_required_for_llm, Config.tool_required_for_tool_node.
  destruct (Config.in_type n), (Config.in_prompt n) as [|p],
    (Config.in_tool n) as [|t]; simpl;
    try (destruct (Config.falsy_str p)); try (destruct (Config.falsy_str t));
    simpl; try discriminate; repeat split; reflexivity.
Qed.

Section agent_acceptance.
Import Config Accepts.

Lemma validate_nodes_members (l : list NodeInput) (c : NodeConfig) :
  c ∈ (validate_nodes l).1 → ∃ n, n ∈ l ∧ NodeConfig_new n = Valid c.
Proof.
  induction l as [|a l IH]; simpl; [intros H; inversion H|].
  destruct (validate_nodes l) as [cfgs errs]. simpl in IH.
  destruct (NodeConfig_new a) as [c'|es] eqn:Ha; simpl.
  - intros [->|Hin]%elem_of_cons.
    + exists a. split; [left | exact Ha].
    + destruct (IH Hin) as (n & Hn & Hv). exists n. split; [right; exact Hn | exact Hv].
  - intros Hin. destruct (IH Hin) as (n & Hn & Hv).
    exists n. split; [right; exact Hn | exact Hv].
Qed.

Lemma valid_node_fields (n : NodeInput) (c : NodeConfig) :
  NodeConfig_new n = Valid c →
  (type c = LLM → prompt c ≠ Some "") ∧ (type c = TOOL → tool c ≠ Some "").
Proof.
  unfold NodeConfig_new, validate_field,
    prompt_required_for_llm, tool_required_for_tool_node.
  destruct (in_type n) eqn:Ht, (in_prompt n) as [|[p|]], (in_tool n) as [|[t|]];
    simpl;
    try (destruct (String.eqb p "") eqn:Hp); try (destruct (String.eqb t "") eqn:Htl);
    simpl; try discriminate; intros [= <-]; simpl;
    split; intros Hty; try discriminate Hty;
    try (intros [= ->]; discriminate); congruence.
Qed.

Lemma edges_field_decided (inp : AgentInput) :
  bool_decide ((validate_field "edges"
                  (fun v => validate_edges v
                              (Some (default SEQUENTIAL (in_workflow_type inp))))
                  (in_edges inp)).2 = [])
  = negb (edges_rejected inp).
Proof.
  unfold edges_rejected, validate_field, validate_edges.
  destruct (in_edges inp) as [|[[|e es]|]]; try reflexivity.
  destruct (default SEQUENTIAL (in_workflow_type inp)); reflexivity.
Qed.

Lemma entry_field_decided (inp : AgentInput) (values_nodes : list NodeConfig) :
  map name values_nodes = map in_name (in_nodes inp) →
  bool_decide ((validate_field "entry_point"
                  (fun v => validate_entry_point v values_nodes)
                  (in_entry_point inp)).2 = [])
  = negb (entry_point_rejected inp).
Proof.
  intros Hnames. unfold entry_point_rejected, validate_field, validate_entry_point.
  destruct (in_entry_point inp) as [|[s|]]; try reflexivity.
  rewrite Hnames. destruct (String.eqb s ""); [reflexivity|].
  destruct (bool_decide (s ∈ map in_name (in_nodes inp))); reflexivity.
Qed.

Lemma is_valid_errors {A} (a : A) (errs : error_list) :
  is_valid (match errs with [] => Valid a | e :: es => Invalid (e :: es) end)
  = bool_decide (errs = []).
Proof. destruct errs; reflexivity. Qed.

End agent_acceptance.

(** X5: constructing an agent configuration succeeds exactly when no node
    is rejected, no edge list is given to a sequential workflow, and a
    non-empty entry point, if supplied, names a declared node. *)
Theorem agent_construction_decided (inp : Config.AgentInput) :
  Accepts.is_valid (Config.AgentConfig_new inp)
  = negb (existsb Accepts.node_rejected (Config.in_nodes inp)
          || Accepts.edges_rejected inp
          || Accepts.entry_point_rejected inp).
Proof.
  unfold Config.AgentConfig_new. rewrite is_valid_errors.
  pose proof (validate_nodes_decided (Config.in_nodes inp)) as Hn.
  pose proof (edges_field_decided inp) as He.
  destruct (existsb Accepts.node_rejected (Config.in_nodes inp)); simpl in *.
  - apply bool_decide_eq_false in Hn. apply bool_decide_eq_false_2.
    intros Happ. apply app_eq_nil in Happ as [H _]. exact (Hn H).
  - apply bool_decide_eq_true in Hn. rewrite Hn. simpl.
    pose proof (entry_field_decided inp _ (validate_nodes_names _ Hn)) as Hp.
    destruct (Accepts.edges_rejected inp); simpl in *.
    + apply bool_decide_eq_false in He. apply bool_decide_eq_false_2.
      intros Happ. apply app_eq_nil in Happ as [H _]. exact (He H).
    + apply bool_decide_eq_true in He. rewrite He. simpl.
      exact Hp.
Qed.

(** X6: what a constructed configuration guarantees.  Its nodes carry the
    declared names in declared order; a non-empty entry point names one of
    its nodes; a sequential workflow has no edges; an LLM node never has an
    empty prompt and a tool node never an empty tool name; an omitted
    workflow type, timeout or iteration limit is [SEQUENTIAL], 300 or 10. *)
Theorem constructed_configuration_guarantees
    (inp : Config.AgentInput) (cfg : Config.AgentConfig)
    (Hvalid : Config.AgentConfig_new inp = Config.Valid cfg) :
  map Config.name (Config.nodes cfg) = map Config.in_name (Config.in_nodes inp)
  ∧ (∀ s, Config.entry_point cfg = Some s → s ≠ "" →
          s ∈ map Config.name (Config.nodes cfg))
  ∧ (Config.workflow_type cfg = Config.SEQUENTIAL →
     default [] (Config.edges cfg) = [])
  ∧ (∀ n, n ∈ Config.nodes cfg →
          (Config.type n = Config.LLM → Config.prompt n ≠ Some "")
          ∧ (Config.type n = Config.TOOL → Config.tool n ≠ Some ""))
  ∧ Config.workflow_type cfg
    = default Config.SEQUENTIAL (Config.in_workflow_type inp)
  ∧ Config.timeout cfg = default 300%Z (Config.in_timeout inp)
  ∧ Config.max_iterations cfg = default 10%Z (Config.in_max_iterations inp).
Proof.
  unfold Config.AgentConfig_new in Hvalid.
  destruct (_ ++ _ ++ _) eqn:Herrs in Hvalid; [|discriminate].
  apply app_eq_nil in Herrs as [Hn Herrs]. apply app_eq_nil in Herrs as [He Hp].
  rewrite Hn in Hp. injection Hvalid as <-. simpl.
  pose proof (validate_nodes_names _ Hn) as Hnames.
  split; [exact Hnames|]. split; [|split; [|split; [|repeat split]]].
  - intros s Hs Hne. revert Hs Hp. unfold Config.validate_field.
    destruct (Config.in_entry_point inp) as [|v]; simpl; [discriminate|].
    unfold Config.validate_entry_point. destruct v as [s'|]; [|discriminate].
    destruct (String.eqb s' "") eqn:Hs'; simpl.
    + intros [= ->]. apply String.eqb_eq in Hs'. contradiction.
    + destruct (bool_decide _) eqn:Hd; simpl; [|discriminate].
      intros [= ->] _. apply bool_decide_eq_true in Hd.
      rewrite Hn in Hd. exact Hd.
  - intros Hseq. revert He. unfold Config.validate_field, Config.validate_edges.
    rewrite Hseq. destruct (Config.in_edges inp) as [|[[|e es]|]]; simpl;
      intros Hnil; [reflexivity|reflexivity|discriminate Hnil|reflexivity].
  - intros n Hin. destruct (validate_nodes_members _ _ Hin) as (ni & _ & Hv).
    exact (valid_node_fields ni n Hv).
Qed.

Lemma constructed_configuration_guarantees_witness :
  ∃ cfg,
    Config.AgentConfig_new Examples.custom_without_edges = Config.Valid cfg
    ∧ map Config.name (Config.nodes cfg) = ["think"]
    ∧ Config.max_iterations cfg = 10%Z.
Proof.
  eexists. split; [reflexivity|].
  destruct (constructed_configuration_guarantees Examples.custom_without_edges _ eq_refl)
    as (Hnames & _ & _ & _ & _ & _ & Hmax).
  split; [exact Hnames | exact Hmax].
Defined.

(* ===================================================================== *)
(** ** Insertion-ordered dictionaries: lookup after update                 *)
(* ===================================================================== *)

Section ordered_dict.
Import AgentBuilder OrderedDict.
Context {A : Type}.
Implicit Types (d : list (string * A)) (k : string) (v : A).

Lemma dict_get_set_eq d k v : dict_get k (dict_set k v d) = Some v.
Proof.
  induction d as [|[k' v'] d IH]; simpl.
  - rewrite String.eqb_refl. reflexivity.
  - destruct (String.eqb k' k) eqn:E; simpl.
    + rewrite String.eqb_refl. reflexivity.
    + rewrite E. exact IH.
Qed.

Lemma dict_get_set_ne d k k0 v : k ≠ k0 → dict_get k0 (dict_set k v d) = dict_get k0 d.
Proof.
  intros Hne. induction d as [|[k' v'] d IH]; simpl.
  - apply String.eqb_neq in Hne. rewrite Hne. reflexivity.
  - destruct (String.eqb k' k) eqn:E; simpl.
    + apply String.eqb_eq in E. subst k'.
      apply String.eqb_neq in Hne. rewrite Hne. reflexivity.
    + destruct (String.eqb k' k0); [reflexivity | exact IH].
Qed.

Lemma dict_get_keys d k : is_Some (dict_get k d) ↔ k ∈ d.*1.
Proof.
  induction d as [|[k' v'] d IH]; simpl.
  - split; [intros [x Hx]; discriminate | intros H; inversion H].
  - destruct (String.eqb k' k) eqn:E.
    + apply String.eqb_eq in E. subst k'. split; [left | eauto].
    + apply String.eqb_neq in E. rewrite IH. split.
      * intros H. right. exact H.
      * intros [->|H]%elem_of_cons; [congruence | exact H].
Qed.

Lemma dict_set_keys d k v :
  (dict_set k v d).*1 = if bool_decide (k ∈ d.*1) then d.*1 else d.*1 ++ [k].
Proof.
  induction d as [|[k' v'] d IH]; [reflexivity|].
  cbn [dict_set]. destruct (String.eqb k' k) eqn:E; rewrite !fmap_cons; cbn [fst].
  - apply String.eqb_eq in E. subst k'.
    rewrite bool_decide_eq_true_2 by left. reflexivity.
  - apply String.eqb_neq in E. rewrite IH.
    destruct (bool_decide (k ∈ d.*1)) eqn:Hd.
    + apply bool_decide_eq_true in Hd.
      rewrite bool_decide_eq_true_2 by (right; exact Hd). reflexivity.
    + apply bool_decide_eq_false in Hd.
      rewrite bool_decide_eq_false_2; [reflexivity|].
      intros [->|H]%elem_of_cons; [congruence | exact (Hd H)].
Qed.

Lemma dict_set_NoDup d k v : NoDup d.*1 → NoDup (dict_set k v d).*1.
Proof.
  intros Hnd. rewrite dict_set_keys. case_bool_decide as Hk; [exact Hnd|].
  apply NoDup_app. split; [exact Hnd|]. split.
  - intros x Hx [->|H]%elem_of_cons; [exact (Hk Hx) | inversion H].
  - apply NoDup_singleton.
Qed.

Lemma filter_keeps_all (l : list string) k :
  (∀ x, x ∈ l → x ≠ k) → filter (fun x => x ≠ k) l = l.
Proof.
  induction l as [|x l IH]; intros Hall; [reflexivity|].
  rewrite filter_cons_True by (apply Hall; left).
  rewrite IH; [reflexivity|]. intros y Hy. apply Hall. right. exact Hy.
Qed.

Lemma dict_del_keys d k : NoDup d.*1 → (dict_del k d).*1 = filter (fun x => x ≠ k) d.*1.
Proof.
  induction d as [|[k' v'] d IH]; [reflexivity|].
  rewrite fmap_cons. cbn [fst dict_del].
  intros [Hk' Hnd]%NoDup_cons. destruct (String.eqb k' k) eqn:E.
  - apply String.eqb_eq in E. subst k'.
    rewrite filter_cons_False by (intros H; exact (H eq_refl)).
    symmetry. apply filter_keeps_all. intros x Hx ->. exact (Hk' Hx).
  - apply String.eqb_neq in E. rewrite fmap_cons. cbn [fst].
    rewrite filter_cons_True by exact E.
    rewrite IH by exact Hnd. reflexivity.
Qed.

Lemma dict_get_del_eq d k : NoDup d.*1 → dict_get k (dict_del k d) = None.
Proof.
  intros Hnd. destruct (dict_get k (dict_del k d)) as [x|] eqn:Hg; [|reflexivity].
  assert (Hin : k ∈ (dict_del k d).*1) by (apply dict_get_keys; eauto).
  rewrite dict_del_keys in Hin by exact Hnd.
  apply list_elem_of_filter in Hin as [Hne _]. destruct (Hne eq_refl).
Qed.

Lemma dict_get_del_ne d k k0 : k ≠ k0 → dict_get k0 (dict_del k d) = dict_get k0 d.
Proof.
  intros Hne. induction d as [|[k' v'] d IH]; simpl; [reflexivity|].
  destruct (String.eqb k' k) eqn:E; simpl.
  - apply String.eqb_eq in E. subst k'.
    apply String.eqb_neq in Hne. rewrite Hne. reflexivity.
  - destruct (String.eqb k' k0); [reflexivity | exact IH].
Qed.

End ordered_dict.

(* ===================================================================== *)
(** ** Node units: default tool input, human input, LLM and tool nodes     *)
(* ===================================================================== *)

(** X7: an empty input mapping is treated like no mapping.  On a state
    whose history is a list, the default tool input is empty for an empty
    history, [{"input": content}] when the last message is a message
    object, and an [AttributeError] on [content] for any other last
    entry. *)
Theorem default_tool_input_cases (st : state) (l : list value)
    (Hhistory : get_messages st = VList l) :
  Nodes._prepare_tool_input st (Some ∅) = Nodes._prepare_tool_input st None
  ∧ Nodes._prepare_tool_input st None
    = match last l with
      | None => Ok ∅
      | Some (VMsg _ c) => Ok {["input" := c]}
      | Some m => Raise (no_attribute m "content")
      end.
Proof.
  split; [reflexivity|].
  unfold Nodes._prepare_tool_input, Nodes.default_tool_input. rewrite Hhistory.
  destruct l as [|x l]; [reflexivity|].
  simpl truthy. cbv iota. unfold Nodes.last_item.
  destruct (last (x :: l)) as [m|] eqn:Hlast.
  - destruct m; reflexivity.
  - apply last_None in Hlast. discriminate.
Qed.

Lemma default_tool_input_cases_witness :
  get_messages MoreExamples.replied_state = VList [AIMessage (VStr "42")]
  ∧ Nodes._prepare_tool_input MoreExamples.replied_state None
    = Ok {["input" := VStr "42"]}.
Proof.
  split; [reflexivity|].
  exact (proj2 (default_tool_input_cases MoreExamples.replied_state
                  [AIMessage (VStr "42")] eq_refl)).
Defined.

Section human_input.
Import Nodes.

(** One run of a human-input node on a state whose history is the list
    [l]. *)
Lemma human_input_node_run (config : Config.NodeConfig) (st : state) (l : list value) :
  get_messages st = VList l →
  let asked :=
    <["human_input_prompt" := VStr (human_prompt config)]>
      (<["needs_human_input" := VBool true]>
         (<["current_node" := VStr (Config.name config)]> st)) in
  human_input_node config st =
    match st !! "human_input" with
    | None => Returned asked (RetDict asked)
    | Some answer =>
        let done :=
          delete "human_input"
            (<["needs_human_input" := VBool false]>
               (<["messages" := VList (l ++ [HumanMessage answer])]> asked)) in
        Returned done (RetDict done)
    end.
Proof.
  intros Hl asked. unfold human_input_node. fold asked.
  assert (Hans : asked !! "human_input" = st !! "human_input")
    by (subst asked; rewrite !lookup_insert_ne by discriminate; reflexivity).
  assert (Hmsg : get_messages asked = VList l).
  { rewrite <- Hl. unfold get_messages. subst asked.
    rewrite !lookup_insert_ne by discriminate. reflexivity. }
  rewrite Hans, Hmsg. destruct (st !! "human_input"); reflexivity.
Qed.

End human_input.

(** X8: suspension and resumption.  A human-input node run on a state
    without an answer leaves it awaiting input; merging the answer into that
    state with [update] and running the node again clears the flag, appends
    the answer to the original history as a human message and consumes the
    answer. *)
Theorem human_input_suspend_resume
    (config : Config.NodeConfig) (st : state) (answer : value)
    (Hhistory : get_messages st = VList (messages_of st))
    (Hnone : st !! "human_input" = None) :
  ∃ st1 st2,
    Nodes.human_input_node config st = Nodes.Returned st1 (Nodes.RetDict st1)
    ∧ st1 !! "needs_human_input" = Some (VBool true)
    ∧ messages_of st1 = messages_of st
    ∧ Nodes.human_input_node config
        (StateManager.update st1 {["human_input" := answer]})
      = Nodes.Returned st2 (Nodes.RetDict st2)
    ∧ st2 !! "needs_human_input" = Some (VBool false)
    ∧ messages_of st2 = messages_of st ++ [HumanMessage answer]
    ∧ st2 !! "human_input" = None.
Proof.
  pose proof (human_input_node_run config st _ Hhistory) as Hrun1.
  rewrite Hnone in Hrun1. simpl in Hrun1.
  eexists. eexists. split; [exact Hrun1|].
  split; [simplify_map_eq; reflexivity|].
  split; [unfold messages_of; simplify_map_eq; reflexivity|].
  match goal with |- context [StateManager.update ?a ?u] =>
    set (merged := StateManager.update a u) end.
  assert (Hm : get_messages merged = VList (messages_of st)).
  { rewrite <- Hhistory. unfold get_messages. subst merged.
    rewrite update_lookup. simplify_map_eq. reflexivity. }
  assert (Ha : merged !! "human_input" = Some answer).
  { subst merged. rewrite update_lookup. simplify_map_eq. reflexivity. }
  pose proof (human_input_node_run config merged _ Hm) as Hrun2.
  rewrite Ha in Hrun2. simpl in Hrun2.
  split; [exact Hrun2|].
  split; [simplify_map_eq; reflexivity|].
  split; [unfold messages_of; simplify_map_eq; reflexivity|].
  simplify_map_eq. reflexivity.
Qed.

Lemma human_input_suspend_resume_witness :
  get_messages Examples.sample_state = VList (messages_of Examples.sample_state)
  ∧ Examples.sample_state !! "human_input" = None
  ∧ ∃ st1 st2,
      Nodes.human_input_node Examples.ask_config Examples.sample_state
        = Nodes.Returned st1 (Nodes.RetDict st1)
      ∧ Nodes.human_input_node Examples.ask_config
          (StateManager.update st1 {["human_input" := VStr "yes"]})
        = Nodes.Returned st2 (Nodes.RetDict st2)
      ∧ messages_of st2 = [HumanMessage (VStr "yes")].
Proof.
  split; [reflexivity|]. split; [reflexivity|].
  destruct (human_input_suspend_resume Examples.ask_config Examples.sample_state
              (VStr "yes") eq_refl eq_refl)
    as (st1 & st2 & H1 & _ & _ & H2 & _ & Hm & _).
  exists st1, st2. split; [exact H1|]. split; [exact H2 | exact Hm].
Defined.

(** X9: a pending answer on a state whose [messages] entry is neither a
    list nor a message object makes the human-input node raise
    [AttributeError] on [append]; the error text is recorded in the state,
    the state stays marked as awaiting input and the answer is not
    consumed. *)
Theorem human_input_node_bad_history
    (config : Config.NodeConfig) (st : state) (answer v : value)
    (Hanswer : st !! "human_input" = Some answer)
    (Hentry : st !! "messages" = Some v)
    (Hnolist : ∀ l, v ≠ VList l)
    (Hnomessage : ∀ role c, v ≠ VMsg role c) :
  ∃ st',
    Nodes.human_input_node config st
      = Nodes.Raised st' (no_attribute v "append")
    ∧ st' !! "error" = Some (VStr (exn_str (no_attribute v "append")))
    ∧ st' !! "needs_human_input" = Some (VBool true)
    ∧ st' !! "human_input" = Some answer
    ∧ st' !! "messages" = Some v.
Proof.
  unfold Nodes.human_input_node, Nodes.record_error, get_messages.
  rewrite !lookup_insert_ne by discriminate. rewrite Hanswer, Hentry. simpl.
  destruct v as [| | | |l| |role c]; try (destruct (Hnolist l eq_refl));
    try (destruct (Hnomessage role c eq_refl));
    (eexists; split; [reflexivity|]; simplify_map_eq; auto).
Qed.

Lemma human_input_node_bad_history_witness :
  MoreExamples.broken_history_state !! "human_input" = Some (VStr "yes")
  ∧ MoreExamples.broken_history_state !! "messages" = Some VNone
  ∧ ∃ st',
      Nodes.human_input_node Examples.ask_config MoreExamples.broken_history_state
        = Nodes.Raised st' (Exn AttributeError "'NoneType' object has no attribute 'append'")
      ∧ st' !! "error" = Some (VStr "'NoneType' object has no attribute 'append'")
      ∧ st' !! "human_input" = Some (VStr "yes").
Proof.
  split; [reflexivity|]. split; [reflexivity|].
  assert (Hnolist : ∀ l, VNone ≠ VList l) by discriminate.
  assert (Hnomessage : ∀ role c, VNone ≠ VMsg role c) by discriminate.
  destruct (human_input_node_bad_history Examples.ask_config
              MoreExamples.broken_history_state (VStr "yes") VNone
              eq_refl eq_refl Hnolist Hnomessage)
    as (st' & Hrun & He & _ & Ha & _).
  exists st'. split; [exact Hrun|]. split; [exact He | exact Ha].
Defined.

Section llm_node_runs.
Import Nodes NodeUnits.

(** The messages handed to the provider for the list history [l]. *)
Lemma with_system_prompt_list (config : Config.NodeConfig) (l : list value) :
  with_system_prompt config (VList l)
  = Ok (VList (if negb (Config.falsy_str (Config.prompt config))
                  && negb (existsb is_system_message l)
               then SystemMessage (VStr (default "" (Config.prompt config))) :: l
               else l)).
Proof.
  unfold with_system_prompt.
  destruct (Config.falsy_str (Config.prompt config)); [reflexivity|].
  simpl. destruct (existsb is_system_message l); reflexivity.
Qed.

(** One run of an LLM node on a state whose history is the list [l]. *)
Lemma llm_node_run llm_invoke (config : Config.NodeConfig) (st : state) (l : list value) :
  get_messages st = VList l →
  let sent :=
    if negb (Config.falsy_str (Config.prompt config))
       && negb (existsb is_system_message l)
    then SystemMessage (VStr (default "" (Config.prompt config))) :: l
    else l in
  let entered := <["current_node" := VStr (Config.name config)]> st in
  llm_node llm_invoke config st =
    match llm_invoke (VList sent) with
    | Ok response =>
        let kept := <["messages" := VList (sent ++ [response])]> entered in
        match content_of response with
        | Ok c => Returned (<["output" := c]> kept) (RetDict (<["output" := c]> kept))
        | Raise e => record_error kept e
        end
    | Raise e => record_error entered e
    end.
Proof.
  intros Hl sent entered. unfold llm_node. fold entered.
  assert (Hm : get_messages entered = VList l).
  { rewrite <- Hl. unfold get_messages. subst entered.
    rewrite lookup_insert_ne by discriminate. reflexivity. }
  rewrite Hm, with_system_prompt_list. fold sent.
  destruct (llm_invoke (VList sent)) as [response|e]; reflexivity.
Qed.

End llm_node_runs.

(** X10: an LLM node on a list history [l] calls the provider with [l],
    preceded by the prompt as a system message when the prompt is non-empty
    and [l] holds no system message.  When the provider answers with a
    message, the new history is what was sent followed by the answer, the
    output is the answer's content, and only [current_node], [messages] and
    [output] change. *)
Theorem llm_node_success
    (llm_invoke : value → result value) (config : Config.NodeConfig)
    (st : state) (l : list value) (role : string) (c : value)
    (Hhistory : get_messages st = VList l)
    (Hanswer :
       llm_invoke
         (VList (if negb (Config.falsy_str (Config.prompt config))
                    && negb (existsb NodeUnits.is_system_message l)
                 then SystemMessage (VStr (default "" (Config.prompt config))) :: l
                 else l))
       = Ok (VMsg role c)) :
  ∃ st',
    NodeUnits.llm_node llm_invoke config st = Nodes.Returned st' (Nodes.RetDict st')
    ∧ messages_of st'
      = (if negb (Config.falsy_str (Config.prompt config))
            && negb (existsb NodeUnits.is_system_message l)
         then SystemMessage (VStr (default "" (Config.prompt config))) :: l
         else l) ++ [VMsg role c]
    ∧ st' !! "output" = Some c
    ∧ st' !! "current_node" = Some (VStr (Config.name config))
    ∧ ∀ k, k ≠ "current_node" → k ≠ "messages" → k ≠ "output" → st' !! k = st !! k.
Proof.
  pose proof (llm_node_run llm_invoke config st l Hhistory) as Hrun.
  simpl in Hrun. rewrite Hanswer in Hrun. simpl in Hrun.
  eexists. split; [exact Hrun|].
  split; [unfold messages_of; simplify_map_eq; reflexivity|].
  split; [simplify_map_eq; reflexivity|].
  split; [simplify_map_eq; reflexivity|].
  intros k H1 H2 H3. rewrite !lookup_insert_ne by congruence. reflexivity.
Qed.

Lemma llm_node_success_witness :
  get_messages Examples.sample_state = VList []
  ∧ ∃ st',
      NodeUnits.llm_node MoreExamples.answering_llm MoreExamples.llm_config
        Examples.sample_state
      = Nodes.Returned st' (Nodes.RetDict st')
      ∧ messages_of st'
        = [SystemMessage (VStr "Be brief"); AIMessage (VStr "Paris")]
      ∧ st' !! "output" = Some (VStr "Paris").
Proof.
  split; [reflexivity|].
  destruct (llm_node_success MoreExamples.answering_llm MoreExamples.llm_config
              Examples.sample_state [] "ai" (VStr "Paris") eq_refl eq_refl)
    as (st' & Hrun & Hm & Ho & _).
  exists st'. split; [exact Hrun|]. split; [exact Hm | exact Ho].
Defined.

(** X11: when the provider fails, the LLM node raises the provider's
    error; the state it leaves records the node's name and the error text
    and has the history, like every other key, as before. *)
Theorem llm_node_provider_failure
    (llm_invoke : value → result value) (config : Config.NodeConfig)
    (st : state) (l : list value) (e : exn)
    (Hhistory : get_messages st = VList l)
    (Hfail :
       llm_invoke
         (VList (if negb (Config.falsy_str (Config.prompt config))
                    && negb (existsb NodeUnits.is_system_message l)
                 then SystemMessage (VStr (default "" (Config.prompt config))) :: l
                 else l))
       = Raise e) :
  ∃ st',
    NodeUnits.llm_node llm_invoke config st = Nodes.Raised st' e
    ∧ st' !! "error" = Some (VStr (exn_str e))
    ∧ st' !! "current_node" = Some (VStr (Config.name config))
    ∧ ∀ k, k ≠ "current_node" → k ≠ "error" → st' !! k = st !! k.
Proof.
  pose proof (llm_node_run llm_invoke config st l Hhistory) as Hrun.
  simpl in Hrun. rewrite Hfail in Hrun. unfold Nodes.record_error in Hrun.
  eexists. split; [exact Hrun|].
  split; [simplify_map_eq; reflexivity|].
  split; [simplify_map_eq; reflexivity|].
  intros k H1 H2. rewrite !lookup_insert_ne by congruence. reflexivity.
Qed.

Lemma llm_node_provider_failure_witness :
  get_messages Examples.sample_state = VList []
  ∧ ∃ st',
      NodeUnits.llm_node MoreExamples.failing_llm MoreExamples.llm_config
        Examples.sample_state
      = Nodes.Raised st' (Exn OtherError "rate limit")
      ∧ st' !! "error" = Some (VStr "rate limit")
      ∧ st' !! "messages" = Some (VList []).
Proof.
  split; [reflexivity|].
  destruct (llm_node_provider_failure MoreExamples.failing_llm MoreExamples.llm_config
              Examples.sample_state [] (Exn OtherError "rate limit") eq_refl eq_refl)
    as (st' & Hrun & He & _ & Hk).
  exists st'. split; [exact Hrun|]. split; [exact He|].
  rewrite (Hk "messages") by discriminate. reflexivity.
Defined.

(** X12: the system prompt is inserted at most once.  After an LLM node
    with a non-empty prompt has answered, a second LLM node, whatever its
    prompt, sends the history as it is and appends its answer: the final
    history is what the first node sent followed by the two answers. *)
Theorem system_prompt_inserted_once
    (llm1 llm2 : value → result value) (config1 config2 : Config.NodeConfig)
    (st : state) (l : list value) (role1 role2 : string) (c1 c2 : value)
    (Hhistory : get_messages st = VList l)
    (Hprompt : Config.falsy_str (Config.prompt config1) = false)
    (Hfirst :
       llm1 (VList (if existsb NodeUnits.is_system_message l then l
                    else SystemMessage (VStr (default "" (Config.prompt config1))) :: l))
       = Ok (VMsg role1 c1))
    (Hsecond :
       llm2 (VList ((if existsb NodeUnits.is_system_message l then l
                     else SystemMessage (VStr (default "" (Config.prompt config1))) :: l)
                    ++ [VMsg role1 c1]))
       = Ok (VMsg role2 c2)) :
  ∃ st1 st2,
    NodeUnits.llm_node llm1 config1 st = Nodes.Returned st1 (Nodes.RetDict st1)
    ∧ NodeUnits.llm_node llm2 config2 st1 = Nodes.Returned st2 (Nodes.RetDict st2)
    ∧ messages_of st2
      = (if existsb NodeUnits.is_system_message l then l
         else SystemMessage (VStr (default "" (Config.prompt config1))) :: l)
        ++ [VMsg role1 c1; VMsg role2 c2].
Proof.
  set (sent := if existsb NodeUnits.is_system_message l then l
               else SystemMessage (VStr (default "" (Config.prompt config1))) :: l) in *.
  assert (Hsent : (if negb (Config.falsy_str (Config.prompt config1))
                      && negb (existsb NodeUnits.is_system_message l)
                   then SystemMessage (VStr (default "" (Config.prompt config1))) :: l
                   else l) = sent).
  { rewrite Hprompt. subst sent. simpl.
    destruct (existsb NodeUnits.is_system_message l); reflexivity. }
  assert (Hsys : existsb NodeUnits.is_system_message (sent ++ [VMsg role1 c1]) = true).
  { rewrite existsb_app. subst sent.
    destruct (existsb NodeUnits.is_system_message l) eqn:Hl; [rewrite Hl|]; reflexivity. }
  pose proof (llm_node_run llm1 config1 st l Hhistory) as Hrun1.
  simpl in Hrun1. rewrite Hsent, Hfirst in Hrun1. simpl in Hrun1.
  eexists. eexists. split; [exact Hrun1|].
  match goal with |- NodeUnits.llm_node llm2 config2 ?s = _ ∧ _ => set (st1 := s) end.
  assert (Hm1 : get_messages st1 = VList (sent ++ [VMsg role1 c1]))
    by (unfold get_messages; subst st1; simplify_map_eq; reflexivity).
  pose proof (llm_node_run llm2 config2 st1 _ Hm1) as Hrun2.
  simpl in Hrun2. rewrite Hsys, andb_false_r, Hsecond in Hrun2. simpl in Hrun2.
  split; [exact Hrun2|].
  unfold messages_of. simplify_map_eq. rewrite <- app_assoc. reflexivity.
Qed.

Lemma system_prompt_inserted_once_witness :
  get_messages Examples.sample_state = VList []
  ∧ Config.falsy_str (Config.prompt MoreExamples.llm_config) = false
  ∧ ∃ st1 st2,
      NodeUnits.llm_node MoreExamples.answering_llm MoreExamples.llm_config
        Examples.sample_state
      = Nodes.Returned st1 (Nodes.RetDict st1)
      ∧ NodeUnits.llm_node MoreExamples.answering_llm MoreExamples.llm_config st1
        = Nodes.Returned st2 (Nodes.RetDict st2)
      ∧ messages_of st2
        = [SystemMessage (VStr "Be brief"); AIMessage (VStr "Paris");
           AIMessage (VStr "Paris")].
Proof.
  split; [reflexivity|]. split; [reflexivity|].
  destruct (system_prompt_inserted_once MoreExamples.answering_llm
              MoreExamples.answering_llm MoreExamples.llm_config MoreExamples.llm_config
              Examples.sample_state [] "ai" "ai" (VStr "Paris") (VStr "Paris")
              eq_refl eq_refl eq_refl eq_refl)
    as (st1 & st2 & H1 & H2 & Hm).
  exists st1, st2. split; [exact H1|]. split; [exact H2 | exact Hm].
Defined.

(** X13: a tool node whose input is prepared and whose tool answers stores
    the result in [tools_output] under the node's name, keeps the results of
    the other nodes, and appends one AI message with the tool's name and the
    rendered result to the history.  The input is prepared after
    [current_node] is set to the node's name. *)
Theorem tool_node_success
    (render : value → string) (t : NodeUnits.tool) (config : Config.NodeConfig)
    (st : state) (l : list value) (d : list (string * value))
    (tool_input : gmap string value) (result : value)
    (Hhistory : get_messages st = VList l)
    (Houtputs : default (VDict []) (st !! "tools_output") = VDict d)
    (Hinput : Nodes._prepare_tool_input
                (<["current_node" := VStr (Config.name config)]> st)
                (Config.tool_config config)
              = Ok tool_input)
    (Hanswer : t tool_input = Ok result) :
  ∃ st',
    NodeUnits.tool_node render t config st = Nodes.Returned st' (Nodes.RetDict st')
    ∧ messages_of st'
      = l ++ [AIMessage (VStr ("Tool " +:+ NodeUnits.tool_label config
                               +:+ " result: " +:+ render result))]
    ∧ st' !! "tools_output"
      = Some (VDict (AgentBuilder.dict_set (Config.name config) result d))
    ∧ OrderedDict.dict_get (Config.name config)
        (AgentBuilder.dict_set (Config.name config) result d) = Some result
    ∧ ∀ other, other ≠ Config.name config →
        OrderedDict.dict_get other (AgentBuilder.dict_set (Config.name config) result d)
        = OrderedDict.dict_get other d.
Proof.
  unfold NodeUnits.tool_node. rewrite Hinput, Hanswer.
  rewrite lookup_insert_ne by discriminate. rewrite Houtputs. simpl.
  assert (Hm : get_messages
                 (<["tools_output" := VDict (AgentBuilder.dict_set (Config.name config) result d)]>
                    (<["tools_output" := VDict d]>
                       (<["current_node" := VStr (Config.name config)]> st)))
               = VList l).
  { rewrite <- Hhistory. unfold get_messages.
    rewrite !lookup_insert_ne by discriminate. reflexivity. }
  rewrite Hm. eexists. split; [reflexivity|].
  split; [unfold messages_of; simplify_map_eq; reflexivity|].
  split; [simplify_map_eq; reflexivity|].
  split; [apply dict_get_set_eq|].
  intros other Hne. apply dict_get_set_ne. congruence.
Qed.

Lemma tool_node_success_witness :
  get_messages Examples.sample_state = VList []
  ∧ default (VDict []) (Examples.sample_state !! "tools_output") = VDict []
  ∧ ∃ st',
      NodeUnits.tool_node MoreExamples.render_text MoreExamples.search_tool
        MoreExamples.search_config Examples.sample_state
      = Nodes.Returned st' (Nodes.RetDict st')
      ∧ messages_of st' = [AIMessage (VStr "Tool web_search result: sunny")]
      ∧ st' !! "tools_output" = Some (VDict [("lookup", VStr "sunny")]).
Proof.
  split; [reflexivity|]. split; [reflexivity|].
  assert (Hin : ∃ tool_input,
             Nodes._prepare_tool_input
               (<["current_node" := VStr "lookup"]> Examples.sample_state)
               (Config.tool_config MoreExamples.search_config) = Ok tool_input)
    by (eexists; reflexivity).
  destruct Hin as (tool_input & Hin).
  destruct (tool_node_success MoreExamples.render_text MoreExamples.search_tool
              MoreExamples.search_config Examples.sample_state [] [] tool_input
              (VStr "sunny") eq_refl eq_refl Hin eq_refl)
    as (st' & Hrun & Hm & Ho & _).
  exists st'. split; [exact Hrun|]. split; [exact Hm | exact Ho].
Defined.

(* ===================================================================== *)
(** ** Tool registry                                                      *)
(* ===================================================================== *)

Section tool_registry.
Import AgentBuilder OrderedDict Tools.
Context {tool : Type}.
Implicit Types (r : ToolRegistry tool) (t : tool).

Lemma get_tool_listed r name :
  is_ok (get_tool r name) = bool_decide (name ∈ list_tools r).
Proof.
  unfold get_tool, list_tools.
  destruct (dict_get name (_tools r)) as [t|] eqn:Hg; simpl.
  - symmetry. apply bool_decide_eq_true_2. apply dict_get_keys. eauto.
  - symmetry. apply bool_decide_eq_false_2. intros Hin.
    apply dict_get_keys in Hin as [x Hx]. congruence.
Qed.

End tool_registry.

(** X14: a tool node is built exactly when its tool name is given and
    registered: the tool is resolved when the graph is built, not when the
    node runs.  Without a tool manager the builder raises as well. *)
Theorem tool_node_built_iff_registered
    (render : value → string) (registry : Tools.ToolRegistry NodeUnits.tool)
    (config : Config.NodeConfig) :
  is_ok (NodeUnits.ToolNodeBuilder_build render (Some registry) config)
  = match Config.tool config with
    | Some tool_name => bool_decide (tool_name ∈ Tools.list_tools registry)
    | None => false
    end
  ∧ NodeUnits.ToolNodeBuilder_build render None config
    = Raise (Exn ValueError "Tool manager not provided in context").
Proof.
  split; [|reflexivity].
  unfold NodeUnits.ToolNodeBuilder_build.
  destruct (Config.tool config) as [tool_name|]; [|reflexivity].
  rewrite <- get_tool_listed.
  destruct (Tools.get_tool registry tool_name); reflexivity.
Qed.

(** X15: registering and looking up.  After [register_tool(name, t)] the
    registry answers [name] with [t] and every other name as before; a
    lookup succeeds exactly for the listed names and otherwise raises the
    error that names the tool; a fresh registry knows [web_search]. *)
Theorem registry_lookup_after_register
    {tool : Type} (r : Tools.ToolRegistry tool) (name other : string) (t web : tool)
    (config : option (gmap string value)) :
  Tools.get_tool (Tools.register_tool r name t config) other
  = (if decide (other = name) then Ok t else Tools.get_tool r other)
  ∧ is_ok (Tools.get_tool r other) = bool_decide (other ∈ Tools.list_tools r)
  ∧ (other ∈ Tools.list_tools r
     ∨ Tools.get_tool r other
       = Raise (Exn ValueError ("Tool '" +:+ other +:+ "' not found in registry")))
  ∧ Tools.get_tool (Tools.new_registry web) "web_search" = Ok web.
Proof.
  split; [|split; [|split]].
  - unfold Tools.get_tool, Tools.register_tool. simpl. case_decide as Hd.
    + subst other. rewrite dict_get_set_eq. reflexivity.
    + rewrite dict_get_set_ne by congruence. reflexivity.
  - apply get_tool_listed.
  - pose proof (get_tool_listed r other) as H.
    destruct (decide (other ∈ Tools.list_tools r)) as [Hin|Hnot]; [left; exact Hin|].
    right. rewrite bool_decide_eq_false_2 in H by exact Hnot.
    unfold Tools.get_tool in *. destruct (OrderedDict.dict_get other _);
      [discriminate | reflexivity].
  - reflexivity.
Qed.

(** X16: the registry keeps its two tables aligned and its names distinct.
    A fresh registry lists its names without repetition and has a
    configuration entry for exactly those names; [register_tool] keeps
    both.  Registering a listed name keeps the list as it is, registering a
    new name puts it last; the stored configuration is the one given, or
    empty when none is given. *)
Theorem registry_tables_aligned
    {tool : Type} (r : Tools.ToolRegistry tool) (name : string) (t web : tool)
    (config : option (gmap string value))
    (Hnames : NoDup (Tools.list_tools r))
    (Haligned : (Tools._tool_configs r).*1 = Tools.list_tools r) :
  NoDup (Tools.list_tools (Tools.new_registry web))
  ∧ (Tools._tool_configs (Tools.new_registry web)).*1
    = Tools.list_tools (Tools.new_registry web)
  ∧ NoDup (Tools.list_tools (Tools.register_tool r name t config))
  ∧ (Tools._tool_configs (Tools.register_tool r name t config)).*1
    = Tools.list_tools (Tools.register_tool r name t config)
  ∧ Tools.list_tools (Tools.register_tool r name t config)
    = (if bool_decide (name ∈ Tools.list_tools r) then Tools.list_tools r
       else Tools.list_tools r ++ [name])
  ∧ Tools.get_tool_config (Tools.register_tool r name t config) name
    = default ∅ config.
Proof.
  unfold Tools.list_tools in *.
  split; [apply NoDup_singleton|]. split; [reflexivity|].
  unfold Tools.register_tool, Tools.get_tool_config. simpl.
  split; [apply dict_set_NoDup, Hnames|].
  split; [rewrite !dict_set_keys, Haligned; reflexivity|].
  split; [apply dict_set_keys|].
  rewrite dict_get_set_eq. reflexivity.
Qed.

Lemma registry_tables_aligned_witness :
  NoDup (Tools.list_tools (Tools.new_registry MoreExamples.search_tool))
  ∧ (Tools._tool_configs (Tools.new_registry MoreExamples.search_tool)).*1
    = Tools.list_tools (Tools.new_registry MoreExamples.search_tool)
  ∧ Tools.list_tools
      (Tools.register_tool (Tools.new_registry MoreExamples.search_tool)
         "calculator" MoreExamples.search_tool None)
    = ["web_search"; "calculator"].
Proof.
  assert (Hnd : NoDup (Tools.list_tools (Tools.new_registry MoreExamples.search_tool)))
    by apply NoDup_singleton.
  split; [exact Hnd|]. split; [reflexivity|].
  exact (proj1 (proj2 (proj2 (proj2 (proj2
           (registry_tables_aligned (Tools.new_registry MoreExamples.search_tool)
              "calculator" MoreExamples.search_tool MoreExamples.search_tool None
              Hnd eq_refl)))))).
Defined.

Section registries.
Import AgentBuilder OrderedDict Tools.
Context {tool : Type}.
Implicit Types (r : ToolRegistry tool).

Lemma get_tools_all r (names : list string) (ts : list tool) :
  get_tools r names = Ok ts → Forall2 (fun n t => get_tool r n = Ok t) names ts.
Proof.
  revert ts. induction names as [|n names IH]; intros ts; simpl.
  - intros [= <-]. constructor.
  - destruct (get_tool r n) as [t|e] eqn:Hn; [|discriminate].
    destruct (get_tools r names) as [ts'|e]; [|discriminate].
    intros [= <-]. constructor; [exact Hn | apply IH; reflexivity].
Qed.

End registries.

(** X17: [get_tools] answers a list of names with the tools of these
    names, in order, when all are registered, and otherwise raises the error
    that names the first one that is not. *)
Theorem get_tools_all_or_first_missing
    {tool : Type} (r : Tools.ToolRegistry tool) (names : list string) :
  match Tools.get_tools r names with
  | Ok ts => Forall2 (fun n t => Tools.get_tool r n = Ok t) names ts
  | Raise e =>
      ∃ pre n post,
        names = pre ++ n :: post
        ∧ Forall (fun m => m ∈ Tools.list_tools r) pre
        ∧ (n ∉ Tools.list_tools r)
        ∧ e = Exn ValueError ("Tool '" +:+ n +:+ "' not found in registry")
  end.
Proof.
  destruct (Tools.get_tools r names) as [ts|e] eqn:Hrun.
  - apply get_tools_all, Hrun.
  - revert Hrun. induction names as [|n names IH]; simpl; [discriminate|].
    destruct (Tools.get_tool r n) as [t|e'] eqn:Hn.
    + destruct (Tools.get_tools r names) as [ts|e'']; [discriminate|].
      intros [= ->]. destruct (IH eq_refl) as (pre & m & post & -> & Hpre & Hm & He).
      exists (n :: pre), m, post. split; [reflexivity|].
      split; [|split; assumption]. constructor; [|exact Hpre].
      pose proof (get_tool_listed r n) as Hl. rewrite Hn in Hl. simpl in Hl.
      symmetry in Hl. apply bool_decide_eq_true in Hl. exact Hl.
    + intros [= ->]. exists [], n, names. split; [reflexivity|].
      split; [constructor|].
      pose proof (get_tool_listed r n) as Hl. rewrite Hn in Hl. simpl in Hl.
      symmetry in Hl. apply bool_decide_eq_false in Hl. split; [exact Hl|].
      unfold Tools.get_tool in Hn.
      destruct (OrderedDict.dict_get n (Tools._tools r)); [discriminate|].
      injection Hn as <-. reflexivity.
Qed.

(* ===================================================================== *)
(** ** Agent manager and LLM manager                                      *)
(* ===================================================================== *)

(** X18: the agent manager.  An agent that was built is found under its
    configuration's name, also when the name was taken before, and the other
    agents are found as before; the names stay distinct; after
    [delete_agent] the name is not found and the other agents still are;
    deleting an unknown name changes nothing. *)
Theorem agent_manager_round_trip
    (ev : AgentBuilder.edge_evaluator) (context : Nodes.build_context)
    (self : Server.AgentManager) (cfg : Config.AgentConfig)
    (agent : AgentBuilder.LangGraphAgent) (other : string)
    (Hnames : NoDup (Server.list_agents self))
    (Hbuilt : AgentBuilder.build ev context cfg = Ok agent) :
  ∃ self',
    Server.create_agent ev context self cfg = Ok (self', Config.agent_name cfg)
    ∧ Server.get_agent self' (Config.agent_name cfg) = Ok agent
    ∧ NoDup (Server.list_agents self')
    ∧ Server.get_agent self' other
      = (if decide (other = Config.agent_name cfg) then Ok agent
         else Server.get_agent self other)
    ∧ Server.get_agent (Server.delete_agent self' (Config.agent_name cfg)) other
      = (if decide (other = Config.agent_name cfg)
         then Raise (Exn ValueError ("Agent '" +:+ other +:+ "' not found"))
         else Server.get_agent self other)
    ∧ (other ∈ Server.list_agents self ∨ Server.delete_agent self other = self).
Proof.
  unfold Server.create_agent. rewrite Hbuilt. eexists. split; [reflexivity|].
  unfold Server.get_agent, Server.delete_agent, Server.list_agents in *.
  assert (Hnd : NoDup (AgentBuilder.dict_set (Config.agent_name cfg) agent self).*1)
    by (apply dict_set_NoDup, Hnames).
  split; [rewrite dict_get_set_eq; reflexivity|].
  split; [exact Hnd|].
  split.
  { case_decide as Hd.
    - subst other. rewrite dict_get_set_eq. reflexivity.
    - rewrite dict_get_set_ne by congruence. reflexivity. }
  split.
  { case_decide as Hd.
    - subst other. rewrite dict_get_del_eq by exact Hnd. reflexivity.
    - rewrite dict_get_del_ne by congruence.
      rewrite dict_get_set_ne by congruence. reflexivity. }
  destruct (decide (other ∈ self.*1)) as [Hin|Hnot]; [left; exact Hin|]. right.
  clear -Hnot. induction self as [|[k a] self IH]; [reflexivity|].
  simpl in *. apply not_elem_of_cons in Hnot as [Hne Hnot].
  assert (E : String.eqb k other = false) by (apply String.eqb_neq; congruence).
  rewrite E, IH by exact Hnot. reflexivity.
Qed.

Lemma agent_manager_round_trip_witness :
  NoDup (Server.list_agents [])
  ∧ ∃ agent self',
      AgentBuilder.build Examples.no_edge_conditions Examples.plain_context
        (Examples.two_step Config.SEQUENTIAL) = Ok agent
      ∧ Server.create_agent Examples.no_edge_conditions Examples.plain_context []
          (Examples.two_step Config.SEQUENTIAL)
        = Ok (self', "review")
      ∧ Server.get_agent self' "review" = Ok agent
      ∧ Server.get_agent (Server.delete_agent self' "review") "review"
        = Raise (Exn ValueError "Agent 'review' not found").
Proof.
  assert (Hnd : NoDup (Server.list_agents [])) by constructor.
  split; [exact Hnd|]. eexists.
  destruct (agent_manager_round_trip Examples.no_edge_conditions Examples.plain_context
              [] (Examples.two_step Config.SEQUENTIAL) _ "review" Hnd eq_refl)
    as (self' & Hc & Hg & _ & _ & Hd & _).
  exists self'. split; [reflexivity|]. split; [exact Hc|].
  split; [exact Hg | exact Hd].
Defined.

(** X19: the LLM cache.  Once [get_llm] has answered under a non-empty
    cache key, every later call under that key returns the same LLM and
    leaves the manager as it is, whatever node configuration it is given and
    without asking the factory; the default configuration is never changed;
    after [clear_cache] the key is no longer cached. *)
Theorem llm_cache_hit
    {V llm : Type} (create_llm create_llm' : gmap string V → result llm)
    (self self' : LLMFactory.LLMManager) (l : llm)
    (node_config node_config' : option (gmap string V)) (key : string)
    (Hkey : key ≠ "")
    (Hfirst : LLMFactory.get_llm create_llm self node_config (Some key) = Ok (self', l)) :
  LLMFactory.get_llm create_llm' self' node_config' (Some key) = Ok (self', l)
  ∧ LLMFactory.default_config self' = LLMFactory.default_config self
  ∧ LLMFactory._llm_cache (LLMFactory.clear_cache self') !! key = None.
Proof.
  assert (Hk : LLMFactory.usable_key (Some key) = Some key).
  { unfold LLMFactory.usable_key.
    destruct (String.eqb key "") eqn:E; [|reflexivity].
    apply String.eqb_eq in E. contradiction. }
  assert (Hcached : LLMFactory._llm_cache self' !! key = Some l
                    ∧ LLMFactory.default_config self' = LLMFactory.default_config self).
  { unfold LLMFactory.get_llm in Hfirst. rewrite Hk in Hfirst. simpl in Hfirst.
    destruct (LLMFactory._llm_cache self !! key) as [cached|] eqn:Hc.
    - injection Hfirst as <- <-. split; [exact Hc | reflexivity].
    - destruct (create_llm _) as [l0|e]; [|discriminate].
      injection Hfirst as <- <-. simpl. rewrite lookup_insert_eq. split; reflexivity. }
  destruct Hcached as [Hc Hd].
  split; [|split; [exact Hd|]].
  - unfold LLMFactory.get_llm. rewrite Hk. simpl. rewrite Hc. reflexivity.
  - apply lookup_empty.
Qed.

Lemma llm_cache_hit_witness :
  "think" ≠ ""
  ∧ ∃ self',
      LLMFactory.get_llm MoreExamples.mock_factory (LLMFactory.new_manager ∅)
        None (Some "think")
      = Ok (self', "mock-model")
      ∧ LLMFactory.get_llm MoreExamples.unavailable_factory self'
          (Some {["model" := VStr "other"]}) (Some "think")
        = Ok (self', "mock-model").
Proof.
  assert (Hkey : "think" ≠ "") by discriminate.
  split; [exact Hkey|]. eexists. split; [reflexivity|].
  exact (proj1 (llm_cache_hit MoreExamples.mock_factory MoreExamples.unavailable_factory
                  (LLMFactory.new_manager ∅) _ "mock-model" None
                  (Some {["model" := VStr "other"]}) "think" Hkey eq_refl)).
Defined.

(* ===================================================================== *)
(** ** Graph builder: node table, rings, explicit and custom edges         *)
(* ===================================================================== *)

Section node_table.
Import Config Nodes AgentBuilder OrderedDict.

Lemma register_node_table (g : StateGraph) (c : NodeConfig) (f : node_func) :
  graph_nodes (if is_conditional c then add_conditional_edges g (name c) f
               else add_node g (name c) f)
  = dict_set (name c) f (graph_nodes g).
Proof. destruct (is_conditional c); reflexivity. Qed.

Lemma create_nodes_table context l : ∀ g g',
  create_nodes context g l = Ok g' →
  NoDup (graph_nodes g).*1 →
  NoDup (graph_nodes g').*1
  ∧ (∀ n, n ∈ (graph_nodes g').*1 ↔ n ∈ (graph_nodes g).*1 ∨ n ∈ map name l)
  ∧ (∀ k, k ∉ map name l →
          dict_get k (graph_nodes g') = dict_get k (graph_nodes g)).
Proof.
  induction l as [|c l IH]; intros g g'; simpl.
  - intros [= <-] Hnd. split; [exact Hnd|]. split; [|reflexivity].
    intros n. split; [auto | intros [H|H]; [exact H | inversion H]].
  - destruct (create_node c context) as [f|e]; [|discriminate].
    intros Hrun Hnd.
    destruct (IH _ _ Hrun) as (Hnd' & Hkeys & Hget).
    { rewrite register_node_table. apply dict_set_NoDup, Hnd. }
    rewrite register_node_table in Hkeys, Hget.
    split; [exact Hnd'|]. split.
    + intros n. rewrite Hkeys, dict_set_keys.
      case_bool_decide as Hin; rewrite ?elem_of_app, ?list_elem_of_singleton,
        elem_of_cons; split; intros H; try tauto.
      destruct H as [H|[->|H]]; auto.
    + intros k [Hne Hk]%not_elem_of_cons. rewrite Hget by exact Hk.
      apply dict_get_set_ne. congruence.
Qed.

Lemma create_nodes_last_wins context : ∀ pre g g' c post f,
  create_nodes context g (pre ++ c :: post) = Ok g' →
  name c ∉ map name post →
  create_node c context = Ok f →
  dict_get (name c) (graph_nodes g') = Some f.
Proof.
  induction pre as [|p pre IH]; intros g g' c post f; simpl.
  - intros Hrun Hpost Hc. rewrite Hc in Hrun.
    pose proof (create_nodes_edges context post _ _ Hrun) as _.
    assert (Hget : ∀ l g1 g2, create_nodes context g1 l = Ok g2 →
              name c ∉ map name l →
              dict_get (name c) (graph_nodes g2) = dict_get (name c) (graph_nodes g1)).
    { clear. induction l as [|x l IHl]; intros g1 g2; simpl.
      - intros [= <-] _. reflexivity.
      - destruct (create_node x context) as [fx|e]; [|discriminate].
        intros Hrun [Hne Hl]%not_elem_of_cons.
        rewrite (IHl _ _ Hrun Hl), register_node_table.
        apply dict_get_set_ne. congruence. }
    rewrite (Hget _ _ _ Hrun Hpost), register_node_table.
    apply dict_get_set_eq.
  - destruct (create_node p context) as [fp|e]; [|discriminate].
    intros Hrun Hpost Hc. eapply IH; eassumption.
Qed.

End node_table.

(** X20: the node table of a graph.  Whatever names the configuration
    declares, the registered names are distinct and are exactly the declared
    ones; no edge is added while the nodes are created; when a name is
    declared more than once, the table holds the function of the node that
    is declared last under it. *)
Theorem node_table_of_declared_nodes
    (context : Nodes.build_context) (l : list Config.NodeConfig)
    (g : AgentBuilder.StateGraph)
    (Hcreated : AgentBuilder.create_nodes context AgentBuilder.new_graph l = Ok g) :
  NoDup (AgentBuilder.graph_nodes g).*1
  ∧ (∀ n, n ∈ (AgentBuilder.graph_nodes g).*1 ↔ n ∈ map Config.name l)
  ∧ AgentBuilder.graph_edges g = []
  ∧ ∀ pre c post f,
      l = pre ++ c :: post →
      Config.name c ∉ map Config.name post →
      Nodes.create_node c context = Ok f →
      OrderedDict.dict_get (Config.name c) (AgentBuilder.graph_nodes g) = Some f.
Proof.
  destruct (create_nodes_table context l _ _ Hcreated) as (Hnd & Hkeys & _);
    [constructor|].
  split; [exact Hnd|]. split; [|split].
  - intros n. rewrite Hkeys. simpl. split; [intros [H|H]; [inversion H | exact H] | auto].
  - apply (create_nodes_edges context l _ _ Hcreated).
  - intros pre c post f -> Hpost Hc.
    exact (create_nodes_last_wins context pre _ _ c post f Hcreated Hpost Hc).
Qed.

Lemma node_table_of_declared_nodes_witness :
  ∃ g,
    AgentBuilder.create_nodes Examples.plain_context AgentBuilder.new_graph
      [Examples.human_node "ask"; Examples.ask_config] = Ok g
    ∧ NoDup (AgentBuilder.graph_nodes g).*1
    ∧ OrderedDict.dict_get "ask" (AgentBuilder.graph_nodes g)
      = Some (Nodes.human_input_node Examples.ask_config).
Proof.
  eexists. split; [reflexivity|].
  destruct (node_table_of_declared_nodes Examples.plain_context
              [Examples.human_node "ask"; Examples.ask_config] _ eq_refl)
    as (Hnd & _ & _ & Hlast).
  split; [exact Hnd|].
  refine (Hlast [Examples.human_node "ask"] Examples.ask_config [] _ eq_refl _ eq_refl).
  apply not_elem_of_nil.
Defined.

Section rings.
Import Config Nodes AgentBuilder Paths.

Lemma successors_elem (es : list (string * string)) source next :
  next ∈ successors es source → (source, next) ∈ es.
Proof.
  unfold successors. intros ([s t] & -> & Hin)%list_elem_of_fmap.
  apply list_elem_of_filter in Hin as [Hs Hin]. simpl in *. subst s. exact Hin.
Qed.

(** Without an edge into the terminal marker, following edges never
    reaches it. *)
Lemma walk_without_exit (es : list (string * string)) :
  (∀ s t, (s, t) ∈ es → t ≠ END) →
  ∀ fuel current, current ≠ END → (walk es fuel current).2 = false.
Proof.
  intros Hes. induction fuel as [|fuel IH]; intros current Hcur;
    simpl; apply String.eqb_neq in Hcur as Hneq; rewrite Hneq; [reflexivity|].
  destruct (successors es current) as [|next rest] eqn:Hs; [reflexivity|].
  assert (Hnext : next ≠ END).
  { apply (Hes current). apply successors_elem. rewrite Hs. left. }
  specialize (IH next Hnext). destruct (walk es fuel next). exact IH.
Qed.

Lemma cyclic_step_edges nodes g i :
  ∃ added, graph_edges (cyclic_step nodes g i) = graph_edges g ++ added
           ∧ (∀ s t, (s, t) ∈ added → s ∈ map name nodes ∧ t ∈ map name nodes)
           ∧ (∀ a b, nodes !! i = Some a →
                     nodes !! ((i + 1) mod length nodes)%nat = Some b →
                     is_conditional a = false → (name a, name b) ∈ added).
Proof.
  unfold cyclic_step.
  destruct (nodes !! i) as [a|] eqn:Ha;
    [destruct (nodes !! ((i + 1) mod length nodes)%nat) as [b|] eqn:Hb;
     [destruct (is_conditional a) eqn:Hc|]|].
  - exists []. rewrite app_nil_r. split; [reflexivity|]. split.
    + intros s t H. inversion H.
    + intros a' b' [= <-] _ Hn. congruence.
  - exists [(name a, name b)]. split; [reflexivity|]. split.
    + intros s t [= -> ->]%list_elem_of_singleton. split.
      * apply list_elem_of_fmap. exists a. split; [reflexivity|].
        eapply list_elem_of_lookup_2, Ha.
      * apply list_elem_of_fmap. exists b. split; [reflexivity|].
        eapply list_elem_of_lookup_2, Hb.
    + intros a' b' [= <-] [= <-] _. left.
  - exists []. rewrite app_nil_r. split; [reflexivity|]. split.
    + intros s t H. inversion H.
    + intros a' b' _ H. discriminate.
  - exists []. rewrite app_nil_r. split; [reflexivity|]. split.
    + intros s t H. inversion H.
    + intros a' b' H. discriminate.
Qed.

Lemma cyclic_loop_edges nodes l : ∀ g,
  ∃ added, graph_edges (foldl (cyclic_step nodes) g l) = graph_edges g ++ added
           ∧ (∀ s t, (s, t) ∈ added → s ∈ map name nodes ∧ t ∈ map name nodes)
           ∧ (∀ i a b, i ∈ l → nodes !! i = Some a →
                       nodes !! ((i + 1) mod length nodes)%nat = Some b →
                       is_conditional a = false → (name a, name b) ∈ added).
Proof.
  induction l as [|j l IH]; intros g.
  - exists []. rewrite app_nil_r. split; [reflexivity|]. split.
    + intros s t H. inversion H.
    + intros i a b H. inversion H.
  - simpl. destruct (cyclic_step_edges nodes g j) as (add1 & He1 & Hn1 & Hp1).
    destruct (IH (cyclic_step nodes g j)) as (add2 & He2 & Hn2 & Hp2).
    exists (add1 ++ add2). rewrite He2, He1, app_assoc. split; [reflexivity|]. split.
    + intros s t [H|H]%elem_of_app; [apply Hn1, H | apply Hn2, H].
    + intros i a b [->|Hi]%elem_of_cons Ha Hb Hc; apply elem_of_app.
      * left. exact (Hp1 a b Ha Hb Hc).
      * right. exact (Hp2 i a b Hi Ha Hb Hc).
Qed.

End rings.

(** X21: the default ring of a cyclic workflow.  Without explicit edges,
    every node that is not conditional gets an edge to the node declared
    after it, the last one to the first; every edge leads to a declared
    node, so when no node is named like the terminal marker, following the
    static edges from a node never reaches the terminal marker, for any
    number of steps. *)
Theorem cyclic_ring_has_no_exit
    (cfg : Config.AgentConfig)
    (Hdefault : AgentBuilder.supplied_edges cfg = [])
    (Hend : AgentBuilder.END ∉ map Config.name (Config.nodes cfg)) :
  let g := AgentBuilder._add_cyclic_edges AgentBuilder.new_graph cfg in
  (∀ i a b, Config.nodes cfg !! i = Some a →
     Config.nodes cfg !! ((i + 1) mod length (Config.nodes cfg))%nat = Some b →
     AgentBuilder.is_conditional a = false →
     (Config.name a, Config.name b) ∈ AgentBuilder.graph_edges g)
  ∧ (∀ s t, (s, t) ∈ AgentBuilder.graph_edges g →
       s ∈ map Config.name (Config.nodes cfg)
       ∧ t ∈ map Config.name (Config.nodes cfg))
  ∧ (∀ fuel a, a ∈ Config.nodes cfg →
       (Paths.walk (AgentBuilder.graph_edges g) fuel (Config.name a)).2 = false).
Proof.
  intros g. subst g. unfold AgentBuilder._add_cyclic_edges. rewrite Hdefault.
  destruct (cyclic_loop_edges (Config.nodes cfg)
              (seq 0 (length (Config.nodes cfg))) AgentBuilder.new_graph)
    as (added & He & Hn & Hp).
  rewrite He. simpl.
  split; [|split].
  - intros i a b Ha Hb Hc. apply (Hp i a b); try assumption.
    apply elem_of_seq. apply lookup_lt_Some in Ha. lia.
  - exact Hn.
  - intros fuel a Ha. apply walk_without_exit.
    + intros s t Hst Ht. apply Hend. rewrite <- Ht. apply (Hn s t Hst).
    + intros E. apply Hend. rewrite <- E.
      apply list_elem_of_fmap. exists a. split; [reflexivity | exact Ha].
Qed.

Lemma cyclic_ring_has_no_exit_witness :
  AgentBuilder.supplied_edges MoreExamples.ring_config = []
  ∧ (AgentBuilder.END ∉ map Config.name (Config.nodes MoreExamples.ring_config))
  ∧ ("confirm", "ask")
    ∈ AgentBuilder.graph_edges
        (AgentBuilder._add_cyclic_edges AgentBuilder.new_graph MoreExamples.ring_config)
  ∧ (Paths.walk
       (AgentBuilder.graph_edges
          (AgentBuilder._add_cyclic_edges AgentBuilder.new_graph MoreExamples.ring_config))
       100 "ask").2 = false.
Proof.
  assert (Hend : AgentBuilder.END
                 ∉ map Config.name (Config.nodes MoreExamples.ring_config))
    by (apply (bool_decide_unpack _); vm_compute; exact I).
  split; [reflexivity|]. split; [exact Hend|].
  destruct (cyclic_ring_has_no_exit MoreExamples.ring_config eq_refl Hend)
    as (Hlink & _ & Hwalk).
  split.
  - exact (Hlink 1%nat (Examples.human_node "confirm") (Examples.human_node "ask")
             eq_refl eq_refl eq_refl).
  - apply (Hwalk 100%nat (Examples.human_node "ask")). left.
Defined.

Section explicit_edges.
Import Config Nodes AgentBuilder OrderedDict.

Lemma add_direct_edges_edges es : ∀ g,
  graph_edges (add_direct_edges g es)
  = graph_edges g ++ map (fun e => (source e, target e)) es.
Proof.
  unfold add_direct_edges. induction es as [|e es IH]; intros g; simpl.
  - rewrite app_nil_r. reflexivity.
  - rewrite IH. simpl. rewrite <- app_assoc. reflexivity.
Qed.

(** The loop of [_add_custom_edges], with the router [f] every conditional
    edge is given. *)
Lemma custom_loop (f : node_func) es : ∀ g,
  let g' := foldl (fun g edge =>
                     if negb (falsy_str (edge_condition edge))
                     then add_conditional_edges g (source edge) f
                     else add_edge g (source edge) (target edge)) g es in
  (∀ e, e ∈ es → falsy_str (edge_condition e) = false →
        dict_get (source e) (graph_nodes g') = Some f)
  ∧ (∀ k, dict_get k (graph_nodes g) = Some f → dict_get k (graph_nodes g') = Some f)
  ∧ graph_edges g'
    = graph_edges g
      ++ map (fun e => (source e, target e))
             (filter (fun e => falsy_str (edge_condition e) = true) es).
Proof.
  induction es as [|e es IH]; intros g; simpl.
  - split; [intros e H; inversion H|]. split; [auto|]. rewrite app_nil_r. reflexivity.
  - set (g1 := if negb (falsy_str (edge_condition e))
               then add_conditional_edges g (source e) f
               else add_edge g (source e) (target e)).
    destruct (IH g1) as (Hc & Hk & He).
    assert (Hkeep : ∀ k, dict_get k (graph_nodes g) = Some f →
                         dict_get k (graph_nodes g1) = Some f).
    { intros k Hg. subst g1. destruct (falsy_str (edge_condition e)); simpl; [exact Hg|].
      destruct (decide (source e = k)) as [<-|Hne];
        [apply dict_get_set_eq | rewrite dict_get_set_ne by exact Hne; exact Hg]. }
    split; [|split].
    + intros e' [->|Hin]%elem_of_cons Hcond; [|exact (Hc e' Hin Hcond)].
      apply Hk. subst g1. rewrite Hcond. simpl. apply dict_get_set_eq.
    + intros k Hg. apply Hk, Hkeep, Hg.
    + rewrite He. subst g1. destruct (falsy_str (edge_condition e)) eqn:Hf; simpl.
      * rewrite filter_cons_True by exact Hf. simpl.
        rewrite <- app_assoc. reflexivity.
      * rewrite filter_cons_False by (rewrite Hf; discriminate). reflexivity.
Qed.

End explicit_edges.

(** X22: explicit edges in a conditional or cyclic workflow.  When the
    configuration supplies edges, both wirings add exactly these edges, in
    the given order, as unconditional edges from source to target, whatever
    condition an edge carries, and leave the node table alone; a conditional
    workflow without edges is wired like a sequential one. *)
Theorem explicit_edges_are_unconditional
    (g : AgentBuilder.StateGraph) (cfg : Config.AgentConfig)
    (e : Config.EdgeConfig) (es : list Config.EdgeConfig)
    (Hedges : AgentBuilder.supplied_edges cfg = e :: es) :
  AgentBuilder.graph_edges (AgentBuilder._add_conditional_edges g cfg)
  = AgentBuilder.graph_edges g
    ++ map (fun e => (Config.source e, Config.target e)) (e :: es)
  ∧ AgentBuilder.graph_edges (AgentBuilder._add_cyclic_edges g cfg)
    = AgentBuilder.graph_edges g
      ++ map (fun e => (Config.source e, Config.target e)) (e :: es)
  ∧ AgentBuilder.graph_nodes (AgentBuilder._add_conditional_edges g cfg)
    = AgentBuilder.graph_nodes g
  ∧ AgentBuilder.graph_nodes (AgentBuilder._add_cyclic_edges g cfg)
    = AgentBuilder.graph_nodes g.
Proof.
  unfold AgentBuilder._add_conditional_edges, AgentBuilder._add_cyclic_edges.
  rewrite Hedges. rewrite !add_direct_edges_edges, !add_direct_edges_nodes.
  repeat split; reflexivity.
Qed.

Lemma explicit_edges_are_unconditional_witness :
  AgentBuilder.supplied_edges MoreExamples.custom_config
  = [MoreExamples.first_edge; MoreExamples.last_edge]
  ∧ AgentBuilder.graph_edges
      (AgentBuilder._add_cyclic_edges AgentBuilder.new_graph MoreExamples.custom_config)
    = [("ask", "confirm"); ("confirm", "ask")].
Proof.
  split; [reflexivity|].
  exact (proj1 (proj2 (explicit_edges_are_unconditional AgentBuilder.new_graph
                         MoreExamples.custom_config MoreExamples.first_edge
                         [MoreExamples.last_edge] eq_refl))).
Defined.

(** X23: custom edges with a condition.  In the fallback graph a
    conditional edge replaces the function registered for its source node by
    a router, and every router of one wiring is the router of the edge
    declared last: it evaluates the last edge's condition and routes to the
    last edge's target, or to the terminal marker.  The edges without a
    condition are added as static edges, in order. *)
Theorem custom_edges_share_last_router
    (ev : AgentBuilder.edge_evaluator) (g g' : AgentBuilder.StateGraph)
    (cfg : Config.AgentConfig) (final : Config.EdgeConfig)
    (Hlast : last (AgentBuilder.supplied_edges cfg) = Some final)
    (Hwired : AgentBuilder._add_custom_edges ev g cfg = Ok g') :
  (∀ e, e ∈ AgentBuilder.supplied_edges cfg →
        Config.falsy_str (Config.edge_condition e) = false →
        OrderedDict.dict_get (Config.source e) (AgentBuilder.graph_nodes g')
        = Some (AgentBuilder.edge_router ev final))
  ∧ AgentBuilder.graph_edges g'
    = AgentBuilder.graph_edges g
      ++ map (fun e => (Config.source e, Config.target e))
             (filter (fun e => Config.falsy_str (Config.edge_condition e) = true)
                     (AgentBuilder.supplied_edges cfg))
  ∧ (∀ c st, Config.edge_condition final = Some c → ev c st = Ok true →
             AgentBuilder.edge_router ev final st
             = Nodes.Returned st (Nodes.RetVal (VStr (Config.target final)))).
Proof.
  unfold AgentBuilder._add_custom_edges in Hwired.
  destruct (AgentBuilder.supplied_edges cfg) as [|e es] eqn:Hes; [discriminate|].
  rewrite Hlast in Hwired. simpl in Hwired. injection Hwired as <-.
  destruct (custom_loop (AgentBuilder.edge_router ev final) (e :: es) g)
    as (Hc & _ & He).
  split; [exact Hc|]. split; [exact He|].
  intros c st Hcond Hev. unfold AgentBuilder.edge_router. rewrite Hcond, Hev.
  reflexivity.
Qed.

Lemma custom_edges_share_last_router_witness :
  last (AgentBuilder.supplied_edges MoreExamples.custom_config)
  = Some MoreExamples.last_edge
  ∧ ∃ g',
      AgentBuilder._add_custom_edges Examples.no_edge_conditions
        AgentBuilder.new_graph MoreExamples.custom_config = Ok g'
      ∧ OrderedDict.dict_get "ask" (AgentBuilder.graph_nodes g')
        = Some (AgentBuilder.edge_router Examples.no_edge_conditions
                  MoreExamples.last_edge).
Proof.
  split; [reflexivity|]. eexists. split; [reflexivity|].
  refine (proj1 (custom_edges_share_last_router Examples.no_edge_conditions
                   AgentBuilder.new_graph _ MoreExamples.custom_config
                   MoreExamples.last_edge eq_refl eq_refl)
                MoreExamples.first_edge _ eq_refl).
  left.
Defined.

(* ===================================================================== *)
(** ** Building and running: entry point, failures, streaming              *)
(* ===================================================================== *)

Section building.
Import Config Nodes AgentBuilder Streaming.

Lemma valid_entry_point_declared (inp : AgentInput) (cfg : AgentConfig) :
  AgentConfig_new inp = Valid cfg →
  ∀ s, entry_point cfg = Some s → s ≠ "" → s ∈ map name (nodes cfg).
Proof.
  unfold AgentConfig_new. intros Hvalid.
  destruct (_ ++ _ ++ _) eqn:Herrs in Hvalid; [|discriminate].
  apply app_eq_nil in Herrs as [Hn Herrs]. apply app_eq_nil in Herrs as [_ Hp].
  injection Hvalid as <-. simpl. intros s Hs Hne. revert Hs Hp.
  unfold validate_field. destruct (in_entry_point inp) as [|v]; simpl; [discriminate|].
  unfold validate_entry_point. destruct v as [s'|]; [|discriminate].
  destruct (String.eqb s' "") eqn:Hs'; simpl.
  - intros [= ->]. apply String.eqb_eq in Hs'. contradiction.
  - destruct (bool_decide _) eqn:Hd; simpl; [|discriminate].
    intros [= ->] _. apply bool_decide_eq_true in Hd. rewrite Hn in Hd. exact Hd.
Qed.

Lemma _build_graph_stages ev context cfg :
  _build_graph ev context cfg =
    match wired_graph ev context cfg with
    | Raise e => Raise e
    | Ok g =>
        if falsy_str (entry_point cfg) then
          match nodes cfg with
          | first :: _ => Ok (set_entry_point g (name first))
          | [] => Raise (Exn IndexError "list index out of range")
          end
        else Ok (set_entry_point g (default "" (entry_point cfg)))
    end.
Proof.
  unfold _build_graph, wired_graph.
  destruct (create_nodes context new_graph (nodes cfg)); reflexivity.
Qed.



Lemma stream_run (table : list (string * node_func)) : ∀ st,
  (stream_nodes table st).*1 = (run_nodes table st).2
  ∧ default st (snd <$> last (stream_nodes table st)) = (run_nodes table st).1.
Proof.
  induction table as [|[n f] table IH]; intros st; [split; reflexivity|].
  cbn [stream_nodes run_nodes]. destruct (f st) as [s' r|s' e]; [|split; reflexivity].
  destruct (IH (apply_result s' r)) as [Hn Hl].
  destruct (run_nodes table (apply_result s' r)) as [final called].
  cbn [fst snd] in *. rewrite fmap_cons, Hn. split; [reflexivity|].
  rewrite <- Hl. destruct (stream_nodes table (apply_result s' r)) as [|ev evs];
    [reflexivity|].
  change (last ((n, apply_result s' r) :: ev :: evs)) with (last (ev :: evs)).
  destruct (last (ev :: evs)) eqn:Hlast; [reflexivity|].
  apply last_None in Hlast. discriminate.
Qed.

End building.

(** X24: a configuration without nodes passes construction, and can never
    be built: its entry point is necessarily empty, so the builder fails,
    with the custom-edges error or with [IndexError] on the first node. *)
Theorem configuration_without_nodes_cannot_be_built
    (ev : AgentBuilder.edge_evaluator) (context : Nodes.build_context)
    (inp : Config.AgentInput) (cfg : Config.AgentConfig)
    (Hvalid : Config.AgentConfig_new inp = Config.Valid cfg)
    (Hempty : Config.nodes cfg = []) :
  Config.falsy_str (Config.entry_point cfg) = true
  ∧ AgentBuilder._build_graph ev context cfg
    = Raise (if bool_decide (Config.workflow_type cfg = Config.WF_CUSTOM)
                && bool_decide (AgentBuilder.supplied_edges cfg = [])
             then Exn ValueError "Custom workflow requires edges to be specified"
             else Exn IndexError "list index out of range")
  ∧ is_ok (AgentBuilder.build ev context cfg) = false.
Proof.
  assert (Hentry : Config.falsy_str (Config.entry_point cfg) = true).
  { destruct (Config.entry_point cfg) as [s|] eqn:Hs; [|reflexivity]. simpl.
    destruct (String.eqb s "") eqn:E; [reflexivity|].
    apply String.eqb_neq in E.
    pose proof (valid_entry_point_declared inp cfg Hvalid s Hs E) as Hin.
    rewrite Hempty in Hin. inversion Hin. }
  assert (Hgraph :
            AgentBuilder._build_graph ev context cfg
            = Raise (if bool_decide (Config.workflow_type cfg = Config.WF_CUSTOM)
                        && bool_decide (AgentBuilder.supplied_edges cfg = [])
                     then Exn ValueError "Custom workflow requires edges to be specified"
                     else Exn IndexError "list index out of range")).
  { rewrite _build_graph_stages. unfold Streaming.wired_graph. rewrite Hentry, Hempty. simpl.
    destruct (Config.workflow_type cfg); try reflexivity.
    unfold AgentBuilder._add_custom_edges.
    destruct (AgentBuilder.supplied_edges cfg); reflexivity. }
  split; [exact Hentry|]. split; [exact Hgraph|].
  unfold AgentBuilder.build. rewrite Hgraph. reflexivity.
Qed.

Lemma configuration_without_nodes_cannot_be_built_witness :
  ∃ cfg,
    Config.AgentConfig_new MoreExamples.no_nodes_input = Config.Valid cfg
    ∧ Config.nodes cfg = []
    ∧ is_ok (AgentBuilder.build Examples.no_edge_conditions Examples.plain_context cfg)
      = false.
Proof.
  eexists. split; [reflexivity|]. split; [reflexivity|].
  exact (proj2 (proj2 (configuration_without_nodes_cannot_be_built
                         Examples.no_edge_conditions Examples.plain_context
                         MoreExamples.no_nodes_input _ eq_refl eq_refl))).
Defined.

(** X25: the entry point.  A graph that is built has an entry point: the
    configured one when it is non-empty, the first declared node otherwise.
    The compiled application does not take it over: with at least one node
    declared, building with any other entry point gives the same
    application, hence the same executions. *)
Theorem entry_point_set_and_ignored
    (ev : AgentBuilder.edge_evaluator) (context : Nodes.build_context)
    (cfg : Config.AgentConfig) (ep : option string)
    (agent : AgentBuilder.LangGraphAgent)
    (Hnodes : Config.nodes cfg ≠ [])
    (Hbuilt : AgentBuilder.build ev context cfg = Ok agent) :
  (∃ g, AgentBuilder._build_graph ev context cfg = Ok g
        ∧ AgentBuilder.graph_entry_point g
          = Some (if Config.falsy_str (Config.entry_point cfg)
                  then default "" (Config.name <$> head (Config.nodes cfg))
                  else default "" (Config.entry_point cfg)))
  ∧ ∃ agent',
      AgentBuilder.build ev context (Streaming.with_entry_point ep cfg) = Ok agent'
      ∧ AgentBuilder.app agent' = AgentBuilder.app agent.
Proof.
  unfold AgentBuilder.build in *.
  rewrite !_build_graph_stages in *.
  change (Streaming.wired_graph ev context (Streaming.with_entry_point ep cfg))
    with (Streaming.wired_graph ev context cfg).
  change (Config.nodes (Streaming.with_entry_point ep cfg)) with (Config.nodes cfg).
  change (Config.entry_point (Streaming.with_entry_point ep cfg)) with ep.
  destruct (Streaming.wired_graph ev context cfg) as [g|e]; [|discriminate].
  destruct (Config.nodes cfg) as [|first rest]; [congruence|].
  split.
  - destruct (Config.falsy_str (Config.entry_point cfg));
      eexists; split; reflexivity.
  - assert (Happ : AgentBuilder.app agent = AgentBuilder.compile g).
    { destruct (Config.falsy_str (Config.entry_point cfg));
        injection Hbuilt as <-; reflexivity. }
    rewrite Happ. destruct (Config.falsy_str ep); eexists; split; reflexivity.
Qed.

Lemma entry_point_set_and_ignored_witness :
  Config.nodes (Examples.two_step Config.SEQUENTIAL) ≠ []
  ∧ ∃ agent agent',
      AgentBuilder.build Examples.no_edge_conditions Examples.plain_context
        (Examples.two_step Config.SEQUENTIAL) = Ok agent
      ∧ AgentBuilder.build Examples.no_edge_conditions Examples.plain_context
          (Streaming.with_entry_point (Some "confirm")
             (Examples.two_step Config.SEQUENTIAL)) = Ok agent'
      ∧ AgentBuilder.app agent' = AgentBuilder.app agent.
Proof.
  assert (Hnodes : Config.nodes (Examples.two_step Config.SEQUENTIAL) ≠ [])
    by discriminate.
  split; [exact Hnodes|]. eexists.
  destruct (proj2 (entry_point_set_and_ignored Examples.no_edge_conditions
                     Examples.plain_context (Examples.two_step Config.SEQUENTIAL)
                     (Some "confirm") _ Hnodes eq_refl))
    as (agent' & Hb & Happ).
  exists agent'. split; [reflexivity|]. split; [exact Hb | exact Happ].
Defined.





(** X28: streaming and invoking agree.  The stream has one event per node
    execution, named after the nodes in the order [invoke] calls them, and
    the state of its last event is the state [invoke] ends in (the prepared
    initial state when no node is registered). *)
Theorem stream_matches_invoke
    (agent : AgentBuilder.LangGraphAgent) (input_data : AgentBuilder.agent_input) :
  (Streaming.astream agent input_data).*1
  = AgentBuilder.executions (AgentBuilder.app agent)
      (AgentBuilder._prepare_initial_state input_data)
  ∧ default (AgentBuilder._prepare_initial_state input_data)
            (snd <$> last (Streaming.astream agent input_data))
    = AgentBuilder.final_state agent input_data
  ∧ length (Streaming.astream agent input_data)
    = length (AgentBuilder.executions (AgentBuilder.app agent)
                (AgentBuilder._prepare_initial_state input_data)).
Proof.
  destruct (stream_run (AgentBuilder.app_nodes (AgentBuilder.app agent))
              (AgentBuilder._prepare_initial_state input_data)) as [Hn Hl].
  split; [exact Hn|]. split; [exact Hl|].
  unfold AgentBuilder.executions. rewrite <- Hn, length_fmap. reflexivity.
Qed.

(* ===================================================================== *)
(** ** Preparing a run: initial state and run configuration                *)
(* ===================================================================== *)

(** X29: the initial state.  For a dictionary input every key of the input
    is in the initial state with the input's value; a [messages] entry that
    the input leaves out is one user message with the input's [input] value,
    or empty when there is no [input]; every other key has its default.  So
    all default keys are present.  A string input is prepared like the
    dictionary that holds it under [input]. *)
Theorem initial_state_from_input (d : state) (s k : string) :
  AgentBuilder._prepare_initial_state (AgentBuilder.InputDict d) !! k
  = match d !! k with
    | Some v => Some v
    | None =>
        if decide (k = "messages")
        then Some (VList match d !! "input" with
                         | Some i => [AgentBuilder.user_message i]
                         | None => []
                         end)
        else StateManager._get_default_state !! k
    end
  ∧ dom StateManager._get_default_state
    ⊆ dom (AgentBuilder._prepare_initial_state (AgentBuilder.InputDict d))
  ∧ AgentBuilder._prepare_initial_state (AgentBuilder.InputStr s)
    = AgentBuilder._prepare_initial_state (AgentBuilder.InputDict {["input" := VStr s]}).
Proof.
  split; [|split].
  - unfold AgentBuilder._prepare_initial_state.
    set (base := d ∪ StateManager._get_default_state).
    assert (Hb : base !! k
                 = match d !! k with
                   | Some v => Some v
                   | None => StateManager._get_default_state !! k
                   end).
    { subst base. rewrite lookup_union.
      destruct (d !! k), (StateManager._get_default_state !! k); reflexivity. }
    destruct (d !! "input") as [i|] eqn:Hi, (d !! "messages") as [m|] eqn:Hm;
      (destruct (decide (k = "messages")) as [->|Hk];
       [rewrite ?lookup_insert_eq, ?Hb, ?Hm; reflexivity
       |rewrite ?lookup_insert_ne by congruence; exact Hb]).
  - unfold AgentBuilder._prepare_initial_state.
    destruct (d !! "input"), (d !! "messages");
      rewrite ?dom_insert_L, dom_union_L; intros x Hx;
      rewrite ?elem_of_union; auto.
  - unfold AgentBuilder._prepare_initial_state.
    rewrite lookup_singleton_eq, lookup_singleton_ne by discriminate.
    rewrite <- insert_union_singleton_l. reflexivity.
Qed.

(** X30: the run configuration.  Every key of a non-empty caller
    configuration is taken over; [configurable] is the caller's entry when
    the caller gives one, and otherwise holds the thread identifier, when
    that is non-empty.  A caller configuration with its own [configurable]
    entry thus replaces the thread identifier. *)
Theorem run_config_thread_id
    (config : option state) (thread_id : option string) (k : string) :
  Streaming._prepare_run_config config thread_id !! k
  = match config ≫= (fun c => c !! k) with
    | Some v => Some v
    | None =>
        if decide (k = "configurable")
        then Some (VDict match thread_id with
                         | Some t => if String.eqb t "" then []
                                     else [("thread_id", VStr t)]
                         | None => []
                         end)
        else None
    end.
Proof.
  unfold Streaming._prepare_run_config.
  set (base := match thread_id with
               | Some t => if String.eqb t "" then {["configurable" := VDict []]}
                           else <["configurable" := VDict [("thread_id", VStr t)]]>
                                  {["configurable" := VDict []]}
               | None => {["configurable" := VDict []]}
               end : state).
  assert (Hbase : base !! k
                  = if decide (k = "configurable")
                    then Some (VDict match thread_id with
                                     | Some t => if String.eqb t "" then []
                                                 else [("thread_id", VStr t)]
                                     | None => []
                                     end)
                    else None).
  { subst base. destruct thread_id as [t|]; [destruct (String.eqb t "")|];
      case_decide as Hk; subst; simplify_map_eq; reflexivity. }
  destruct config as [c|]; simpl; [|exact Hbase].
  case_bool_decide as Hc.
  - subst c. rewrite lookup_empty. exact Hbase.
  - rewrite lookup_union. destruct (c !! k); [destruct (base !! k); reflexivity|].
    rewrite <- Hbase. destruct (base !! k); reflexivity.
Qed.

(* ===================================================================== *)
(** ** Sequential workflows: the graph that is built and how it is run     *)
(* ===================================================================== *)

Section sequential_run.
Import Config Nodes AgentBuilder Paths Streaming.







End sequential_run.



